(** * The [protocol] API of the browser process

    A shallow embedding of [atom/browser/api/atom_api_protocol.cc]: the
    module-level scheme registry ([registerSchemesAsPrivileged],
    [getStandardSchemes]) and the per-context [Protocol] controller
    ([unregisterProtocol], [isProtocolHandled], [uninterceptProtocol] and the
    completion reporter).

    Process-wide state (the global scheme list, the URL tables, the command
    line) is threaded explicitly.  The hop to the I/O thread and back is a
    pair of FIFO queues stepped by events. *)

From Stdlib Require Import ZArith.
From stdpp Require Import gmap strings list.

Open Scope string_scope.
Open Scope list_scope.
Set Warnings "-clear-no-such-hyp".

(** ** Collaborators of the scheme registry *)

(** Modelled from the spec: the switch names of
    [atom/common/options_switches.cc], which is not among the sources; the
    command-line propagator fixes them, one per privilege class. *)
Module switches.
Definition kStandardSchemes : string := "standard-schemes".
Definition kSecureSchemes : string := "secure-schemes".
Definition kBypassCSPSchemes : string := "bypass-csp-schemes".
Definition kCORSSchemes : string := "cors-schemes".
Definition kFetchSchemes : string := "fetch-schemes".
Definition kServiceWorkerSchemes : string := "service-worker-schemes".
End switches.

(** Modelled from the spec: [base::JoinString], the parts in input order
    with the separator between neighbours. *)
Fixpoint JoinString (parts : list string) (sep : string) : string :=
  match parts with
  | [] => ""
  | part :: rest =>
      match rest with
      | [] => part
      | _ :: _ => part +:+ sep +:+ JoinString rest sep
      end
  end.

Inductive SchemeType := SCHEME_WITH_HOST.

(** One call into the URL parser's tables ([url::Add...Scheme]) or into the
    child-process security policy ([RegisterWebSafeScheme]). *)
Inductive Mutation :=
  | AddStandardScheme (scheme : string) (type : SchemeType)
  | AddSecureScheme (scheme : string)
  | AddCSPBypassingScheme (scheme : string)
  | AddCORSEnabledScheme (scheme : string)
  | RegisterWebSafeScheme (scheme : string).

(** The process-wide state the registry reads and writes.  [mutations] is
    the log of mutator calls, oldest first; [command_line] holds the switches
    of [base::CommandLine::ForCurrentProcess()] in the order of appending. *)
Record Process := {
  is_ready : bool;
  g_standard_schemes : list string;
  mutations : list Mutation;
  custom_service_worker_schemes : list string;
  command_line : list (string * string)
}.

Definition set_g_standard_schemes (schemes : list string) (w : Process) : Process :=
  {| is_ready := is_ready w;
     g_standard_schemes := schemes;
     mutations := mutations w;
     custom_service_worker_schemes := custom_service_worker_schemes w;
     command_line := command_line w |}.

Definition call (m : Mutation) (w : Process) : Process :=
  {| is_ready := is_ready w;
     g_standard_schemes := g_standard_schemes w;
     mutations := mutations w ++ [m];
     custom_service_worker_schemes := custom_service_worker_schemes w;
     command_line := command_line w |}.

(** Modelled from the spec: [AtomBrowserClient::SetCustomServiceWorkerSchemes]
    publishes its argument as the service-worker-capable schemes, replacing
    what was published before. *)
Definition SetCustomServiceWorkerSchemes (schemes : list string) (w : Process) : Process :=
  {| is_ready := is_ready w;
     g_standard_schemes := g_standard_schemes w;
     mutations := mutations w;
     custom_service_worker_schemes := schemes;
     command_line := command_line w |}.

(** Modelled from the spec: [base::CommandLine::AppendSwitchASCII] appends
    one switch [<switch-name>=<value>] to the command line. *)
Definition AppendSwitchASCII (switch value : string) (w : Process) : Process :=
  {| is_ready := is_ready w;
     g_standard_schemes := g_standard_schemes w;
     mutations := mutations w;
     custom_service_worker_schemes := custom_service_worker_schemes w;
     command_line := command_line w ++ [(switch, value)] |}.

(** ** The scripting bridge *)

(** Modelled from the spec: a [mate::Dictionary] holding the options
    object, kept as its entries that convert to a flag.  [Get] writes the
    flag only when the key is there, so an absent key leaves the default in
    place and keys other than those asked for are never read. *)
Definition Get (options : gmap string bool) (key : string) (out : bool) : bool :=
  match options !! key with
  | Some flag => flag
  | None => out
  end.

(** A completion callback is a script function, named here by a number; a
    null [CompletionCallback] is [None]. *)
Definition Callback := nat.
Definition CompletionCallback := option Callback.
Definition BooleanCallback := nat.

(** [mate::Arguments] as the callee sees it once the leading parameters are
    converted: the number of script arguments, and what [GetNext] yields for
    the next one when asked for a dictionary or for a callback. *)
Record Arguments := {
  Length : nat;
  GetNextDictionary : option (gmap string bool);
  GetNextCallback : CompletionCallback
}.

(** ** Scheme registry *)

Definition GetStandardSchemes (w : Process) : list string := g_standard_schemes w.

(** The six locals [standard] ... [corsEnabled]. *)
Record Privileges := {
  standard : bool;
  secure : bool;
  bypassCSP : bool;
  allowServiceWorkers : bool;
  supportFetchAPI : bool;
  corsEnabled : bool
}.

Definition all_privileges : Privileges :=
  {| standard := true; secure := true; bypassCSP := true;
     allowServiceWorkers := true; supportFetchAPI := true;
     corsEnabled := true |}.

Definition read_options (args : Arguments) : Privileges :=
  if Nat.eqb (Length args) 2 then
    match GetNextDictionary args with
    | Some options =>
        {| standard := Get options "standard" true;
           secure := Get options "secure" true;
           bypassCSP := Get options "bypassCSP" true;
           allowServiceWorkers := Get options "allowServiceWorkers" true;
           supportFetchAPI := Get options "supportFetchAPI" true;
           corsEnabled := Get options "corsEnabled" true |}
    | None => all_privileges
    end
  else all_privileges.

(** The registry's running state: the process and the local set
    [switches]. *)
Definition Frame := (Process * gset string)%type.

Definition when (b : bool) (f : Frame → Frame) (st : Frame) : Frame :=
  if b then f st else st.

Definition effect (f : Process → Process) (st : Frame) : Frame := (f st.1, st.2).

Definition insert_switch (name : string) (st : Frame) : Frame := (st.1, {[name]} ∪ st.2).

(** [scheme.c_str()] as the URL tables read it, a C string: the characters
    before the first NUL. *)
Fixpoint c_str (s : string) : string :=
  match s with
  | EmptyString => EmptyString
  | String c rest =>
      if Ascii.eqb c Ascii.zero then EmptyString else String c (c_str rest)
  end.

(** The body of [for (const auto& scheme : schemes)]. *)
Definition register_scheme (schemes : list string) (p : Privileges)
    (st : Frame) (scheme : string) : Frame :=
  let st := when (standard p) (λ st,
      let st := effect (set_g_standard_schemes schemes) st in
      let st :=
        effect (call (AddStandardScheme (c_str scheme) SCHEME_WITH_HOST)) st in
      let st := insert_switch switches.kStandardSchemes st in
      effect (call (RegisterWebSafeScheme scheme)) st) st in
  let st := when (secure p) (λ st,
      let st := effect (call (AddSecureScheme (c_str scheme))) st in
      insert_switch switches.kSecureSchemes st) st in
  let st := when (bypassCSP p) (λ st,
      let st := effect (call (AddCSPBypassingScheme (c_str scheme))) st in
      insert_switch switches.kBypassCSPSchemes st) st in
  let st := when (corsEnabled p) (λ st,
      let st := effect (call (AddCORSEnabledScheme (c_str scheme))) st in
      insert_switch switches.kCORSSchemes st) st in
  when (supportFetchAPI p) (insert_switch switches.kFetchSchemes) st.

(** [std::unordered_set] promises no iteration order.  The order in which
    the final loop meets the switches is a parameter: any enumeration of the
    set's elements, each once. *)
Class UnorderedSetOrder := {
  iteration : gset string → list string;
  iteration_NoDup : ∀ X, NoDup (iteration X);
  iteration_elem_of : ∀ X x, x ∈ iteration X ↔ x ∈ X
}.

Definition append_switches {O : UnorderedSetOrder} (schemes : list string)
    (names : gset string) (w : Process) : Process :=
  foldl (λ w _switch, AppendSwitchASCII _switch (JoinString schemes ",") w)
        w (iteration names).

Module api.
Definition RegisterSchemesAsPrivileged {O : UnorderedSetOrder}
    (schemes : list string) (args : Arguments) (w : Process) : Process :=
  let p := read_options args in
  let st : Frame := (w, ∅) in
  let st := foldl (register_scheme schemes p) st schemes in
  let st := when (allowServiceWorkers p) (λ st,
      let st := effect (SetCustomServiceWorkerSchemes schemes) st in
      insert_switch switches.kServiceWorkerSchemes st) st in
  append_switches schemes st.2 st.1.
End api.

(** The binding registered as [registerSchemesAsPrivileged]: the process
    afterwards, and the error thrown into the script, if any. *)
Definition RegisterSchemesAsPrivileged {O : UnorderedSetOrder}
    (schemes : list string) (args : Arguments) (w : Process)
    : Process * option string :=
  if is_ready w then
    (w, Some "protocol.registerSchemesAsPrivileged should be called before app is ready")
  else
    (api.RegisterSchemesAsPrivileged schemes args w, None).

(** The order of [elements] is one admissible iteration order. *)
Definition elements_order : UnorderedSetOrder :=
  {| iteration := elements;
     iteration_NoDup := NoDup_elements;
     iteration_elem_of := λ X x, elem_of_elements X x |}.

(** The privilege classes, each with its option key and its switch. *)
Inductive PrivilegeClass :=
  | Standard | Secure | BypassCSP | AllowServiceWorkers | SupportFetchAPI
  | CorsEnabled.

Definition option_key (c : PrivilegeClass) : string :=
  match c with
  | Standard => "standard"
  | Secure => "secure"
  | BypassCSP => "bypassCSP"
  | AllowServiceWorkers => "allowServiceWorkers"
  | SupportFetchAPI => "supportFetchAPI"
  | CorsEnabled => "corsEnabled"
  end.

Definition switch_name (c : PrivilegeClass) : string :=
  match c with
  | Standard => switches.kStandardSchemes
  | Secure => switches.kSecureSchemes
  | BypassCSP => switches.kBypassCSPSchemes
  | AllowServiceWorkers => switches.kServiceWorkerSchemes
  | SupportFetchAPI => switches.kFetchSchemes
  | CorsEnabled => switches.kCORSSchemes
  end.

Definition flag (p : Privileges) (c : PrivilegeClass) : bool :=
  match c with
  | Standard => standard p
  | Secure => secure p
  | BypassCSP => bypassCSP p
  | AllowServiceWorkers => allowServiceWorkers p
  | SupportFetchAPI => supportFetchAPI p
  | CorsEnabled => corsEnabled p
  end.

(** The switches of a command line that carry a given name. *)
Definition named (name : string) (line : list (string * string))
    : list (string * string) :=
  filter (λ sw, sw.1 = name) line.

(** The switches the per-scheme loop inserts in one round. *)
Definition loop_switches (p : Privileges) : gset string :=
  (if standard p then {[switches.kStandardSchemes]} else ∅) ∪
  (if secure p then {[switches.kSecureSchemes]} else ∅) ∪
  (if bypassCSP p then {[switches.kBypassCSPSchemes]} else ∅) ∪
  (if corsEnabled p then {[switches.kCORSSchemes]} else ∅) ∪
  (if supportFetchAPI p then {[switches.kFetchSchemes]} else ∅).

Definition requested_switches (p : Privileges) : gset string :=
  (if allowServiceWorkers p then {[switches.kServiceWorkerSchemes]} else ∅) ∪
  loop_switches p.

(** A process that has not signalled ready and has registered nothing. *)
Definition fresh_process : Process :=
  {| is_ready := false; g_standard_schemes := []; mutations := [];
     custom_service_worker_schemes := []; command_line := [] |}.

(** A call that passes the schemes and nothing else. *)
Definition no_options : Arguments :=
  {| Length := 1; GetNextDictionary := None; GetNextCallback := None |}.

(** A call that passes the schemes and an options object. *)
Definition with_options (o : gmap string bool) : Arguments :=
  {| Length := 2; GetNextDictionary := Some o; GetNextCallback := None |}.

(** ** Status codes and the completion reporter *)

(** Modelled from the spec: the enumeration [Protocol::ProtocolError] of
    [atom_api_protocol.h], which is not among the sources; the enumerators in
    the order the data model lists them, numbered from zero.  A status is
    kept as its integer value, so the values outside the enumerators are
    there too. *)
Definition ProtocolError := Z.
Definition PROTOCOL_OK : ProtocolError := 0%Z.
Definition PROTOCOL_FAIL : ProtocolError := 1%Z.
Definition PROTOCOL_REGISTERED : ProtocolError := 2%Z.
Definition PROTOCOL_NOT_REGISTERED : ProtocolError := 3%Z.
Definition PROTOCOL_INTERCEPTED : ProtocolError := 4%Z.
Definition PROTOCOL_NOT_INTERCEPTED : ProtocolError := 5%Z.

Definition ErrorCodeToString (error : ProtocolError) : string :=
  if (error =? PROTOCOL_FAIL)%Z then "Failed to manipulate protocol factory"
  else if (error =? PROTOCOL_REGISTERED)%Z then "The scheme has been registered"
  else if (error =? PROTOCOL_NOT_REGISTERED)%Z then "The scheme has not been registered"
  else if (error =? PROTOCOL_INTERCEPTED)%Z then "The scheme has been intercepted"
  else if (error =? PROTOCOL_NOT_INTERCEPTED)%Z then "The scheme has not been intercepted"
  else "Unexpected error".

(** What a script callback is run with. *)
Inductive V8Value :=
  | V8Null
  | V8Error (message : string).

(** One run of a script callback. *)
Inductive Run :=
  | CompletionRun (callback : Callback) (argument : V8Value)
  | BooleanRun (callback : BooleanCallback) (handled : bool).

(** [Protocol::OnIOCompleted]: the callback runs it performs. *)
Definition OnIOCompleted (callback : CompletionCallback) (error : ProtocolError)
    : list Run :=
  match callback with
  | None => []
  | Some f =>
      if (error =? PROTOCOL_OK)%Z then [CompletionRun f V8Null]
      else
        let str := ErrorCodeToString error in
        [CompletionRun f (V8Error str)]
  end.

(** ** The job factory *)

(** The request jobs [BuildPrototype] instantiates the register and
    intercept methods with. *)
Inductive RequestJob :=
  | URLRequestStringJob
  | URLRequestBufferJob
  | URLRequestAsyncAsarJob
  | URLRequestFetchJob
  | URLRequestStreamJob.

(** A script function that answers requests, named by a number. *)
Definition Handler := nat.

(** A handler installed in a job factory: the job it starts and the script
    function the job asks. *)
Inductive ProtocolHandler :=
  | CustomProtocolHandler (job : RequestJob) (handler : Handler).

(** Modelled from the spec: the per-context job factory, a collaborator
    behind an interface (its class [AtomURLRequestJobFactory] is not among
    the sources): the entry points the controller calls, and the two points
    of its contract the controller's callers rely on.  Resetting a scheme's
    handler to null leaves the scheme without one; after
    [UninterceptProtocol] the scheme has no override left to remove. *)
Class JobFactory (F : Type) := {
  HasProtocolHandler : F → string → bool;
  SetProtocolHandler : F → string → option ProtocolHandler → F;
  IsHandledProtocol : F → string → bool;
  UninterceptProtocol : F → string → bool * F;
  InterceptProtocol : F → string → ProtocolHandler → bool * F;
  SetProtocolHandler_null : ∀ jf scheme,
    HasProtocolHandler (SetProtocolHandler jf scheme None) scheme = false;
  UninterceptProtocol_again : ∀ jf scheme,
    (UninterceptProtocol (UninterceptProtocol jf scheme).2 scheme).1 = false
}.

(** Modelled from the spec: one job factory, as the registered handlers,
    the schemes with a built-in handler and the overrides in place. *)
Record SchemeTable := {
  protocol_handler_map : gmap string ProtocolHandler;
  builtin_schemes : gset string;
  overrides : gmap string ProtocolHandler
}.

Definition table_has_handler (t : SchemeTable) (scheme : string) : bool :=
  bool_decide (is_Some (protocol_handler_map t !! scheme)).

Definition table_set_handler (t : SchemeTable) (scheme : string)
    (handler : option ProtocolHandler) : SchemeTable :=
  {| protocol_handler_map :=
       match handler with
       | Some h => <[scheme := h]> (protocol_handler_map t)
       | None => delete scheme (protocol_handler_map t)
       end;
     builtin_schemes := builtin_schemes t;
     overrides := overrides t |}.

Definition table_is_handled (t : SchemeTable) (scheme : string) : bool :=
  table_has_handler t scheme || bool_decide (scheme ∈ builtin_schemes t).

Definition table_unintercept (t : SchemeTable) (scheme : string)
    : bool * SchemeTable :=
  match overrides t !! scheme with
  | Some _ =>
      (true,
       {| protocol_handler_map := protocol_handler_map t;
          builtin_schemes := builtin_schemes t;
          overrides := delete scheme (overrides t) |})
  | None => (false, t)
  end.

Definition table_intercept (t : SchemeTable) (scheme : string)
    (handler : ProtocolHandler) : bool * SchemeTable :=
  match overrides t !! scheme with
  | Some _ => (false, t)
  | None =>
      (true,
       {| protocol_handler_map := protocol_handler_map t;
          builtin_schemes := builtin_schemes t;
          overrides := <[scheme := handler]> (overrides t) |})
  end.

(** ** The I/O-thread halves *)

Section InIO.
Context {F : Type} {JF : JobFactory F}.

Definition UnregisterProtocolInIO (job_factory : F) (scheme : string)
    : ProtocolError * F :=
  if negb (HasProtocolHandler job_factory scheme) then
    (PROTOCOL_NOT_REGISTERED, job_factory)
  else
    let job_factory := SetProtocolHandler job_factory scheme None in
    (PROTOCOL_OK, job_factory).

Definition IsProtocolHandledInIO (job_factory : F) (scheme : string) : bool :=
  IsHandledProtocol job_factory scheme.

Definition UninterceptProtocolInIO (job_factory : F) (scheme : string)
    : ProtocolError * F :=
  let (removed, job_factory) := UninterceptProtocol job_factory scheme in
  (if removed then PROTOCOL_OK else PROTOCOL_NOT_INTERCEPTED, job_factory).

(** Modelled from the spec: the I/O half of [register<Job>Protocol], a
    template of [atom_api_protocol.h], which is not among the sources.  It
    succeeds when no handler exists for the scheme and yields
    PROTOCOL_REGISTERED otherwise, leaving the handler in place. *)
Definition RegisterProtocolInIO (job_factory : F) (job : RequestJob)
    (scheme : string) (handler : Handler) : ProtocolError * F :=
  if HasProtocolHandler job_factory scheme then
    (PROTOCOL_REGISTERED, job_factory)
  else
    let protocol_handler := CustomProtocolHandler job handler in
    (PROTOCOL_OK, SetProtocolHandler job_factory scheme (Some protocol_handler)).

(** Modelled from the spec: the I/O half of [intercept<Job>Protocol], a
    template of the same header.  It succeeds when no override is in place
    and yields PROTOCOL_INTERCEPTED otherwise. *)
Definition InterceptProtocolInIO (job_factory : F) (job : RequestJob)
    (scheme : string) (handler : Handler) : ProtocolError * F :=
  let protocol_handler := CustomProtocolHandler job handler in
  let (installed, job_factory) :=
    InterceptProtocol job_factory scheme protocol_handler in
  (if installed then PROTOCOL_OK else PROTOCOL_INTERCEPTED, job_factory).
End InIO.

(** ** The controller and the two threads *)

(** A weak pointer handed out by the controller's [weak_factory_]; it is
    valid for as long as the controller is. *)
Inductive WeakPtr := weak_this.

(** The object a method is bound to for a later run: through a weak
    pointer, or as [base::Unretained], a bare pointer nothing keeps valid. *)
Inductive Receiver :=
  | ToWeakPtr (p : WeakPtr)
  | ToUnretained.

(** What [PostTaskAndReplyWithResult] was given: the task bound for the I/O
    thread together with the reply bound for the originating thread. *)
Inductive Posted :=
  | PostUnregisterProtocol (scheme : string) (receiver : Receiver)
      (callback : CompletionCallback)
  | PostIsProtocolHandled (scheme : string) (callback : BooleanCallback)
  | PostUninterceptProtocol (scheme : string) (receiver : Receiver)
      (callback : CompletionCallback)
  | PostRegisterProtocol (job : RequestJob) (scheme : string)
      (handler : Handler) (receiver : Receiver) (callback : CompletionCallback)
  | PostInterceptProtocol (job : RequestJob) (scheme : string)
      (handler : Handler) (receiver : Receiver) (callback : CompletionCallback).

(** A reply with the task's result, waiting on the originating thread:
    [Protocol::OnIOCompleted] bound to its receiver and a completion
    callback, or the boolean callback itself. *)
Inductive Reply :=
  | ReplyOnIOCompleted (receiver : Receiver) (callback : CompletionCallback)
      (error : ProtocolError)
  | ReplyBoolean (callback : BooleanCallback) (handled : bool).

(** A browsing context with its controller: the job factory behind the
    request-context getter, whether the controller (and with it every weak
    pointer it handed out) is still there, the two task queues, oldest
    first, the script callbacks run so far, and whether a method has been
    run on the controller after its destruction. *)
Record BrowserContext (F : Type) := {
  job_factory : F;
  protocol_alive : bool;
  io_thread : list Posted;
  ui_thread : list Reply;
  script_log : list Run;
  crashed : bool
}.
Arguments job_factory {F} _.
Arguments protocol_alive {F} _.
Arguments io_thread {F} _.
Arguments ui_thread {F} _.
Arguments script_log {F} _.
Arguments crashed {F} _.

Inductive Event :=
  | CallUnregisterProtocol (scheme : string) (args : Arguments)
  | CallIsProtocolHandled (scheme : string) (callback : BooleanCallback)
  | CallUninterceptProtocol (scheme : string) (args : Arguments)
  | CallRegisterProtocol (job : RequestJob) (scheme : string)
      (handler : Handler) (args : Arguments)
  | CallInterceptProtocol (job : RequestJob) (scheme : string)
      (handler : Handler) (args : Arguments)
  | RunIOTask
  | RunReply
  | DestroyProtocol.

(** [BrowserThread::PostTaskAndReplyWithResult]: the task joins the I/O
    thread's queue at its end. *)
Definition PostTaskAndReplyWithResult {F : Type} (p : Posted)
    (b : BrowserContext F) : BrowserContext F :=
  {| job_factory := job_factory b;
     protocol_alive := protocol_alive b;
     io_thread := io_thread b ++ [p];
     ui_thread := ui_thread b;
     script_log := script_log b;
     crashed := crashed b |}.

(** The controller's methods, as the script calls them. *)
Module Protocol.
Section Methods.
Context {F : Type}.

Definition GetWeakPtr (b : BrowserContext F) : WeakPtr := weak_this.

Definition UnregisterProtocol (scheme : string) (args : Arguments)
    (b : BrowserContext F) : BrowserContext F :=
  let callback := GetNextCallback args in
  PostTaskAndReplyWithResult
    (PostUnregisterProtocol scheme (ToWeakPtr (GetWeakPtr b)) callback) b.

Definition IsProtocolHandled (scheme : string) (callback : BooleanCallback)
    (b : BrowserContext F) : BrowserContext F :=
  PostTaskAndReplyWithResult (PostIsProtocolHandled scheme callback) b.

Definition UninterceptProtocol (scheme : string) (args : Arguments)
    (b : BrowserContext F) : BrowserContext F :=
  let callback := GetNextCallback args in
  PostTaskAndReplyWithResult
    (PostUninterceptProtocol scheme (ToWeakPtr (GetWeakPtr b)) callback) b.

(** Modelled from the spec: [Protocol::RegisterProtocol<Job>], the template
    of [atom_api_protocol.h] behind the five [register...Protocol] methods
    of [BuildPrototype].  Like every mutating operation it posts its I/O
    half and binds the reply through a weak pointer to the controller. *)
Definition RegisterProtocol (job : RequestJob) (scheme : string)
    (handler : Handler) (args : Arguments) (b : BrowserContext F)
    : BrowserContext F :=
  let callback := GetNextCallback args in
  PostTaskAndReplyWithResult
    (PostRegisterProtocol job scheme handler (ToWeakPtr (GetWeakPtr b)) callback)
    b.

(** Modelled from the spec: [Protocol::InterceptProtocol<Job>], the template
    behind the five [intercept...Protocol] methods. *)
Definition InterceptProtocol (job : RequestJob) (scheme : string)
    (handler : Handler) (args : Arguments) (b : BrowserContext F)
    : BrowserContext F :=
  let callback := GetNextCallback args in
  PostTaskAndReplyWithResult
    (PostInterceptProtocol job scheme handler (ToWeakPtr (GetWeakPtr b)) callback)
    b.
End Methods.
End Protocol.

Section Controller.
Context {F : Type} {JF : JobFactory F}.

(** The I/O thread runs one posted task on the job factory and binds its
    result to the reply. *)
Definition run_task (p : Posted) (jf : F) : Reply * F :=
  match p with
  | PostUnregisterProtocol scheme receiver callback =>
      let (error, jf) := UnregisterProtocolInIO jf scheme in
      (ReplyOnIOCompleted receiver callback error, jf)
  | PostIsProtocolHandled scheme callback =>
      (ReplyBoolean callback (IsProtocolHandledInIO jf scheme), jf)
  | PostUninterceptProtocol scheme receiver callback =>
      let (error, jf) := UninterceptProtocolInIO jf scheme in
      (ReplyOnIOCompleted receiver callback error, jf)
  | PostRegisterProtocol job scheme handler receiver callback =>
      let (error, jf) := RegisterProtocolInIO jf job scheme handler in
      (ReplyOnIOCompleted receiver callback error, jf)
  | PostInterceptProtocol job scheme handler receiver callback =>
      let (error, jf) := InterceptProtocolInIO jf job scheme handler in
      (ReplyOnIOCompleted receiver callback error, jf)
  end.

(** The originating thread runs one reply.  A method bound to a weak
    pointer is dropped when the pointer has been invalidated; a plain
    callback always runs.  A method bound unretained is run on whatever its
    pointer points to: on a destroyed controller that is a use of freed
    memory, from which no callback run is recorded. *)
Definition run_reply (alive : bool) (r : Reply) : list Run :=
  match r with
  | ReplyOnIOCompleted (ToWeakPtr weak_this) callback error =>
      if alive then OnIOCompleted callback error else []
  | ReplyOnIOCompleted ToUnretained callback error =>
      if alive then OnIOCompleted callback error else []
  | ReplyBoolean callback handled => [BooleanRun callback handled]
  end.

Definition use_after_free (alive : bool) (r : Reply) : bool :=
  match r with
  | ReplyOnIOCompleted ToUnretained _ _ => negb alive
  | _ => false
  end.

Definition io_step (b : BrowserContext F) : BrowserContext F :=
  match io_thread b with
  | [] => b
  | p :: rest =>
      let (r, jf) := run_task p (job_factory b) in
      {| job_factory := jf;
         protocol_alive := protocol_alive b;
         io_thread := rest;
         ui_thread := ui_thread b ++ [r];
         script_log := script_log b;
         crashed := crashed b |}
  end.

Definition reply_step (b : BrowserContext F) : BrowserContext F :=
  match ui_thread b with
  | [] => b
  | r :: rest =>
      {| job_factory := job_factory b;
         protocol_alive := protocol_alive b;
         io_thread := io_thread b;
         ui_thread := rest;
         script_log := script_log b ++ run_reply (protocol_alive b) r;
         crashed := crashed b || use_after_free (protocol_alive b) r |}
  end.

Definition destroy (b : BrowserContext F) : BrowserContext F :=
  {| job_factory := job_factory b;
     protocol_alive := false;
     io_thread := io_thread b;
     ui_thread := ui_thread b;
     script_log := script_log b;
     crashed := crashed b |}.

(** One event.  A script can call a method only on a controller that is
    still there. *)
Definition step (b : BrowserContext F) (e : Event) : BrowserContext F :=
  match e with
  | CallUnregisterProtocol scheme args =>
      if protocol_alive b then Protocol.UnregisterProtocol scheme args b else b
  | CallIsProtocolHandled scheme callback =>
      if protocol_alive b then Protocol.IsProtocolHandled scheme callback b else b
  | CallUninterceptProtocol scheme args =>
      if protocol_alive b then Protocol.UninterceptProtocol scheme args b else b
  | CallRegisterProtocol job scheme handler args =>
      if protocol_alive b
      then Protocol.RegisterProtocol job scheme handler args b else b
  | CallInterceptProtocol job scheme handler args =>
      if protocol_alive b
      then Protocol.InterceptProtocol job scheme handler args b else b
  | RunIOTask => io_step b
  | RunReply => reply_step b
  | DestroyProtocol => destroy b
  end.

Definition run (events : list Event) (b : BrowserContext F) : BrowserContext F :=
  foldl step b events.

(** Let the I/O thread run every task posted so far, then the originating
    thread every reply. *)
Definition drain (b : BrowserContext F) : BrowserContext F :=
  let n := length (io_thread b) in
  let m := length (ui_thread b) in
  run (replicate n RunIOTask ++ replicate (m + n) RunReply) b.
End Controller.

Definition completion_runs (log : list Run) : list (Callback * V8Value) :=
  omap (λ r, match r with
             | CompletionRun f v => Some (f, v)
             | BooleanRun _ _ => None
             end) log.

Definition boolean_runs (log : list Run) : list (BooleanCallback * bool) :=
  omap (λ r, match r with
             | CompletionRun _ _ => None
             | BooleanRun f handled => Some (f, handled)
             end) log.

(** A process that has signalled ready, with one scheme registered before. *)
Definition ready_process : Process :=
  {| is_ready := true; g_standard_schemes := ["app"];
     mutations := [AddSecureScheme "app"];
     custom_service_worker_schemes := ["app"];
     command_line := [(switches.kSecureSchemes, "app")] |}.

(** An options object that asks for the standard class alone and carries a
    key the registry does not know. *)
Definition standard_only : gmap string bool :=
  list_to_map
    [("secure", false); ("standard", true); ("bypassCSP", false);
     ("corsEnabled", false); ("allowServiceWorkers", false);
     ("supportFetchAPI", false); ("stream", true)].

(** A call that passes a completion callback. *)
Definition with_callback (f : Callback) : Arguments :=
  {| Length := 2; GetNextDictionary := None; GetNextCallback := Some f |}.

(** A job factory with a handler registered for [app], a built-in handler
    for [https] and an override in place on [https]. *)
Definition example_table : SchemeTable :=
  {| protocol_handler_map := {["app" := CustomProtocolHandler URLRequestStringJob 1]};
     builtin_schemes := {["https"]};
     overrides := {["https" := CustomProtocolHandler URLRequestFetchJob 2]} |}.

(** A context with nothing pending. *)
Definition example_context : BrowserContext SchemeTable :=
  {| job_factory := example_table; protocol_alive := true;
     io_thread := []; ui_thread := []; script_log := []; crashed := false |}.


(** The context as [Protocol::Create] leaves it: the controller there,
    nothing posted, nothing run. *)
Definition new_context {F : Type} (jf : F) : BrowserContext F :=
  {| job_factory := jf; protocol_alive := true;
     io_thread := []; ui_thread := []; script_log := []; crashed := false |}.





(** What a completion callback, if one was passed, is run with. *)
Definition report (args : Arguments) (v : V8Value) : list Run :=
  match GetNextCallback args with
  | Some f => [CompletionRun f v]
  | None => []
  end.

(** The I/O thread running a whole queue: the replies in order, and the job
    factory at the end. *)
Fixpoint run_tasks {F : Type} {JF : JobFactory F} (queue : list Posted) (jf : F)
    : list Reply * F :=
  match queue with
  | [] => ([], jf)
  | p :: queue =>
      let (r, jf) := run_task p jf in
      let (rs, jf) := run_tasks queue jf in
      (r :: rs, jf)
  end.

(** ** Vocabulary for the whole of a registration *)

(** The mutator calls the loop body makes for one scheme, in order: the URL
    tables are given the scheme as a C string, the security policy the
    scheme itself. *)
Definition scheme_mutations (p : Privileges) (scheme : string) : list Mutation :=
  (if standard p
   then [AddStandardScheme (c_str scheme) SCHEME_WITH_HOST;
         RegisterWebSafeScheme scheme]
   else []) ++
  (if secure p then [AddSecureScheme (c_str scheme)] else []) ++
  (if bypassCSP p then [AddCSPBypassingScheme (c_str scheme)] else []) ++
  (if corsEnabled p then [AddCORSEnabledScheme (c_str scheme)] else []).

(** The classes whose switch a call inserts: the per-scheme classes when the
    loop runs at all, the service-worker class whatever the list. *)
Definition inserted_classes (p : Privileges) (schemes : list string)
    : list PrivilegeClass :=
  let looped := bool_decide (schemes ≠ []) in
  (if standard p && looped then [Standard] else []) ++
  (if secure p && looped then [Secure] else []) ++
  (if bypassCSP p && looped then [BypassCSP] else []) ++
  (if corsEnabled p && looped then [CorsEnabled] else []) ++
  (if supportFetchAPI p && looped then [SupportFetchAPI] else []) ++
  (if allowServiceWorkers p then [AllowServiceWorkers] else []).

(** A script making several registrations in a row: the process at the end
    and what each call threw. *)
Fixpoint register_each {O : UnorderedSetOrder}
    (calls : list (list string * Arguments)) (w : Process)
    : Process * list (option string) :=
  match calls with
  | [] => (w, [])
  | (schemes, args) :: calls =>
      let (w, thrown) := RegisterSchemesAsPrivileged schemes args w in
      let (w, rest) := register_each calls w in
      (w, thrown :: rest)
  end.

(** The events in which the script calls the controller. *)
Definition is_call (e : Event) : Prop :=
  match e with
  | CallUnregisterProtocol _ _ | CallIsProtocolHandled _ _
  | CallUninterceptProtocol _ _ | CallRegisterProtocol _ _ _ _
  | CallInterceptProtocol _ _ _ _ => True
  | _ => False
  end.

(** The five statuses that name a failure. *)
Definition failure_code (e : ProtocolError) : Prop :=
  e = PROTOCOL_FAIL ∨ e = PROTOCOL_REGISTERED ∨ e = PROTOCOL_NOT_REGISTERED ∨
  e = PROTOCOL_INTERCEPTED ∨ e = PROTOCOL_NOT_INTERCEPTED.

(** Two contexts that differ at most in the controller being there and in
    the completion callbacks run. *)
Definition same_io {F : Type} (b1 b2 : BrowserContext F) : Prop :=
  job_factory b1 = job_factory b2 ∧
  io_thread b1 = io_thread b2 ∧
  ui_thread b1 = ui_thread b2 ∧
  boolean_runs (script_log b1) = boolean_runs (script_log b2).

(** A call with a third script argument after the options object. *)
Definition extra_argument : Arguments :=
  {| Length := 3; GetNextDictionary := Some standard_only;
     GetNextCallback := None |}.

(** * Properties of the scheme registry *)

Lemma switch_name_inj c d : switch_name c = switch_name d → c = d.
Proof. destruct c, d; simpl; intros E; first [reflexivity | discriminate E]. Qed.

Lemma elem_of_requested_switches p c :
  switch_name c ∈ requested_switches p ↔ flag p c = true.
Proof.
  unfold requested_switches, loop_switches.
  destruct p as [[] [] [] [] [] []], c; simpl;
    unfold switches.kStandardSchemes, switches.kSecureSchemes,
      switches.kBypassCSPSchemes, switches.kCORSSchemes,
      switches.kFetchSchemes, switches.kServiceWorkerSchemes;
    set_solver.
Qed.

Section Loop.
Variables (schemes : list string) (p : Privileges).

Lemma register_scheme_switches st scheme :
  (register_scheme schemes p st scheme).2 = loop_switches p ∪ st.2.
Proof.
  unfold register_scheme, loop_switches, when, effect, insert_switch.
  destruct (standard p), (secure p), (bypassCSP p), (corsEnabled p),
    (supportFetchAPI p); simpl; set_solver.
Qed.

Lemma register_scheme_frame st scheme :
  let w := (register_scheme schemes p st scheme).1 in
  is_ready w = is_ready st.1 ∧
  custom_service_worker_schemes w = custom_service_worker_schemes st.1 ∧
  command_line w = command_line st.1.
Proof.
  unfold register_scheme, when, effect, insert_switch.
  destruct (standard p), (secure p), (bypassCSP p), (corsEnabled p),
    (supportFetchAPI p); simpl; auto.
Qed.

Lemma register_scheme_standard st scheme :
  standard p = true →
  g_standard_schemes (register_scheme schemes p st scheme).1 = schemes.
Proof.
  intros Hstd. unfold register_scheme, when, effect, insert_switch.
  rewrite Hstd.
  destruct (secure p), (bypassCSP p), (corsEnabled p), (supportFetchAPI p);
    reflexivity.
Qed.

Lemma loop_switches_nonempty l st :
  l ≠ [] → (foldl (register_scheme schemes p) st l).2 = loop_switches p ∪ st.2.
Proof.
  revert st. induction l as [|s l IH]; intros st Hl; [done|].
  destruct l as [|s' l].
  - simpl. apply register_scheme_switches.
  - change (foldl _ st (s :: s' :: l))
      with (foldl (register_scheme schemes p) (register_scheme schemes p st s) (s' :: l)).
    rewrite IH by done. rewrite register_scheme_switches. set_solver.
Qed.

Lemma loop_frame l st :
  let w := (foldl (register_scheme schemes p) st l).1 in
  is_ready w = is_ready st.1 ∧
  custom_service_worker_schemes w = custom_service_worker_schemes st.1 ∧
  command_line w = command_line st.1.
Proof.
  revert st. induction l as [|s l IH]; intros st; simpl; [done|].
  destruct (IH (register_scheme schemes p st s)) as (-> & -> & ->).
  apply register_scheme_frame.
Qed.

Lemma loop_standard l st :
  standard p = true → l ≠ [] →
  g_standard_schemes (foldl (register_scheme schemes p) st l).1 = schemes.
Proof.
  intros Hstd. revert st. induction l as [|s l IH]; intros st Hl; [done|].
  destruct l as [|s' l].
  - simpl. by apply register_scheme_standard.
  - change (foldl _ st (s :: s' :: l))
      with (foldl (register_scheme schemes p) (register_scheme schemes p st s) (s' :: l)).
    by apply IH.
Qed.
End Loop.

Section Order.
Context {O : UnorderedSetOrder}.

Lemma append_switches_fold value l w :
  let w' := foldl (λ w _switch, AppendSwitchASCII _switch value w) w l in
  is_ready w' = is_ready w ∧
  g_standard_schemes w' = g_standard_schemes w ∧
  mutations w' = mutations w ∧
  custom_service_worker_schemes w' = custom_service_worker_schemes w ∧
  command_line w' = (command_line w ++ ((λ name, (name, value)) <$> l)).
Proof.
  revert w. induction l as [|name l IH]; intros w; cbn zeta.
  - simpl. by rewrite app_nil_r.
  - simpl foldl.
    destruct (IH (AppendSwitchASCII name value w)) as (-> & -> & -> & -> & ->).
    rewrite fmap_cons. simpl. by rewrite <- app_assoc.
Qed.

Lemma named_app name (l1 l2 : list (string * string)) :
  named name (l1 ++ l2) = named name l1 ++ named name l2.
Proof. unfold named. apply filter_app. Qed.

Lemma named_switches value name l :
  NoDup l →
  named name ((λ name, (name, value)) <$> l)
  = if bool_decide (name ∈ l) then [(name, value)] else [].
Proof.
  unfold named. induction 1 as [|x l Hx Hl IH]; [done|].
  rewrite fmap_cons. destruct (decide (x = name)) as [->|Hne].
  - rewrite filter_cons_True by done.
    rewrite IH. rewrite (bool_decide_eq_false_2 _ Hx).
    rewrite bool_decide_eq_true_2 by set_solver. done.
  - rewrite filter_cons_False by done. rewrite IH.
    apply (f_equal (λ b : bool, if b then [(name, value)] else [])).
    apply bool_decide_ext. set_solver.
Qed.
End Order.

Lemma read_options_flag args o c :
  Length args = 2 → GetNextDictionary args = Some o →
  flag (read_options args) c = default true (o !! option_key c).
Proof.
  intros HL Ho. unfold read_options, Get. rewrite HL, Ho. simpl.
  destruct c; simpl; by destruct (o !! _).
Qed.

Lemma read_options_omitted args :
  Length args ≠ 2 → read_options args = all_privileges.
Proof.
  intros HL. unfold read_options.
  by rewrite (proj2 (Nat.eqb_neq _ _) HL).
Qed.

Section Registry.
Context {O : UnorderedSetOrder}.

(** What the whole of [api::RegisterSchemesAsPrivileged] leaves on the
    command line, for a list with at least one scheme. *)
Lemma api_command_line schemes args w :
  schemes ≠ [] →
  command_line (api.RegisterSchemesAsPrivileged schemes args w)
  = (command_line w ++
     ((λ name, (name, JoinString schemes ",")) <$>
        iteration (requested_switches (read_options args)))).
Proof.
  intros Hne. unfold api.RegisterSchemesAsPrivileged, append_switches.
  set (p := read_options args).
  set (st := foldl (register_scheme schemes p) (w, ∅) schemes).
  pose proof (loop_switches_nonempty schemes p schemes (w, ∅) Hne) as Hsw.
  destruct (loop_frame schemes p schemes (w, ∅)) as (_ & _ & Hcl).
  fold st in Hsw, Hcl. simpl in Hsw, Hcl.
  match goal with |- command_line (foldl ?f ?w0 ?l) = _ =>
    destruct (append_switches_fold (JoinString schemes ",") l w0)
      as (_ & _ & _ & _ & ->) end.
  unfold requested_switches, when, effect, insert_switch.
  destruct (allowServiceWorkers p); simpl; rewrite Hcl, Hsw; do 3 f_equal;
    set_solver.
Qed.

Lemma api_standard_schemes schemes args w :
  standard (read_options args) = true → schemes ≠ [] →
  g_standard_schemes (api.RegisterSchemesAsPrivileged schemes args w) = schemes.
Proof.
  intros Hstd Hne. unfold api.RegisterSchemesAsPrivileged, append_switches.
  match goal with |- g_standard_schemes (foldl ?f ?w0 ?l) = _ =>
    destruct (append_switches_fold (JoinString schemes ",") l w0)
      as (_ & -> & _) end.
  pose proof (loop_standard schemes (read_options args) schemes (w, ∅) Hstd Hne).
  unfold when, effect, insert_switch.
  by destruct (allowServiceWorkers _).
Qed.

Lemma api_is_ready schemes args w :
  is_ready (api.RegisterSchemesAsPrivileged schemes args w) = is_ready w.
Proof.
  unfold api.RegisterSchemesAsPrivileged, append_switches.
  match goal with |- is_ready (foldl ?f ?w0 ?l) = _ =>
    destruct (append_switches_fold (JoinString schemes ",") l w0)
      as (-> & _) end.
  destruct (loop_frame schemes (read_options args) schemes (w, ∅)) as (Hr & _).
  unfold when, effect, insert_switch.
  by destruct (allowServiceWorkers _).
Qed.

(** C1: invoked after the application has signalled ready,
    [registerSchemesAsPrivileged] throws "protocol.registerSchemesAsPrivileged
    should be called before app is ready" and changes nothing: the process
    it returns is the one it was given, so no switch is appended, the
    standard scheme list is the same and the log of URL-table and
    security-policy calls has not grown. *)
Theorem register_after_ready_throws schemes args w :
  is_ready w = true →
  ∃ w',
    RegisterSchemesAsPrivileged schemes args w =
      (w', Some "protocol.registerSchemesAsPrivileged should be called before app is ready") ∧
    w' = w ∧
    command_line w' = command_line w ∧
    GetStandardSchemes w' = GetStandardSchemes w ∧
    mutations w' = mutations w.
Proof.
  intros Hready. exists w. unfold RegisterSchemesAsPrivileged.
  rewrite Hready. repeat split.
Qed.

(** C2: before ready, a call with at least one scheme succeeds and appends
    to the command line, for every privilege class whose flag is set,
    exactly one switch of that class's name, valued with the schemes joined
    by commas in input order (for a single scheme: the scheme itself); a
    class whose flag is cleared gets no switch.  The flags are all set
    when no options object is passed; with an options object each flag is
    the object's entry under that class's key, set when the entry is
    absent, so other keys play no part. *)
Theorem privileged_switches_appended schemes args w :
  is_ready w = false → schemes ≠ [] →
  ∃ w' appended,
    RegisterSchemesAsPrivileged schemes args w = (w', None) ∧
    command_line w' = (command_line w ++ appended) ∧
    (∀ c, named (switch_name c) appended =
            if flag (read_options args) c
            then [(switch_name c, JoinString schemes ",")] else []) ∧
    (∀ c, flag (read_options args) c = true →
          named (switch_name c) (command_line w) = [] →
          named (switch_name c) (command_line w') =
            [(switch_name c, JoinString schemes ",")]) ∧
    (∀ s, JoinString [s] "," = s) ∧
    (∀ s t rest,
        JoinString (s :: t :: rest) "," = s +:+ "," +:+ JoinString (t :: rest) ",") ∧
    (Length args ≠ 2 → ∀ c, flag (read_options args) c = true) ∧
    (∀ o, Length args = 2 → GetNextDictionary args = Some o →
          ∀ c, flag (read_options args) c = default true (o !! option_key c)).
Proof.
  intros Hready Hne.
  assert (∀ c,
    named (switch_name c)
      ((λ name, (name, JoinString schemes ",")) <$>
         iteration (requested_switches (read_options args)))
    = if flag (read_options args) c
      then [(switch_name c, JoinString schemes ",")] else []) as Hnamed.
  { intros c. rewrite named_switches by apply iteration_NoDup.
    apply (f_equal (λ b : bool,
      if b then [(switch_name c, JoinString schemes ",")] else [])).
    destruct (flag (read_options args) c) eqn:Hflag.
    - apply bool_decide_eq_true_2, iteration_elem_of.
      by apply elem_of_requested_switches.
    - apply bool_decide_eq_false_2. rewrite iteration_elem_of.
      rewrite elem_of_requested_switches. congruence. }
  eexists _, _.
  split; [|split; [|split; [|split; [|split; [|split; [|split]]]]]].
  - unfold RegisterSchemesAsPrivileged. rewrite Hready. reflexivity.
  - by apply api_command_line.
  - exact Hnamed.
  - intros c Hflag Hnone. rewrite api_command_line by done.
    by rewrite named_app, Hnone, Hnamed, Hflag.
  - reflexivity.
  - reflexivity.
  - intros HL c. rewrite (read_options_omitted _ HL). by destruct c.
  - intros o HL Ho c. by apply read_options_flag.
Qed.

(** C3, as the code has it: of two calls before ready whose standard flag
    is set, the second with at least one scheme, the standard scheme list
    read afterwards is exactly the second call's list. *)
Theorem second_registration_overwrites L1 L2 args1 args2 w :
  is_ready w = false →
  standard (read_options args1) = true →
  standard (read_options args2) = true →
  L2 ≠ [] →
  ∃ w1 w2,
    RegisterSchemesAsPrivileged L1 args1 w = (w1, None) ∧
    RegisterSchemesAsPrivileged L2 args2 w1 = (w2, None) ∧
    GetStandardSchemes w2 = L2.
Proof.
  intros Hready _ Hstd Hne. eexists _, _.
  unfold RegisterSchemesAsPrivileged. rewrite Hready.
  split; [reflexivity|]. rewrite api_is_ready, Hready.
  split; [reflexivity|]. by apply api_standard_schemes.
Qed.

(** C10: before ready, a call with an empty scheme list and every flag at
    its default leaves the standard scheme list and the log of URL-table
    and security-policy calls as they were, publishes the empty list as
    the service-worker schemes, and appends to the command line the one
    switch [service-worker-schemes] with an empty value and no other. *)
Theorem empty_registration args w :
  is_ready w = false → read_options args = all_privileges →
  RegisterSchemesAsPrivileged [] args w =
    ({| is_ready := false;
        g_standard_schemes := g_standard_schemes w;
        mutations := mutations w;
        custom_service_worker_schemes := [];
        command_line :=
          command_line w ++ [(switches.kServiceWorkerSchemes, "")] |},
     None).
Proof.
  intros Hready Hp. unfold RegisterSchemesAsPrivileged. rewrite Hready.
  f_equal. unfold api.RegisterSchemesAsPrivileged, append_switches.
  rewrite Hp. simpl.
  assert (iteration ({[switches.kServiceWorkerSchemes]} ∪ ∅)
          = [switches.kServiceWorkerSchemes]) as ->.
  { apply Permutation_singleton_r, NoDup_Permutation.
    - apply iteration_NoDup.
    - apply NoDup_singleton.
    - intros x. rewrite iteration_elem_of. set_solver. }
  simpl. unfold AppendSwitchASCII, SetCustomServiceWorkerSchemes. simpl.
  by rewrite Hready.
Qed.
End Registry.

(** * The registry on concrete calls *)

(** One scheme, no options: the standard scheme list is the scheme and all
    six switches carry it. *)
Example register_app :
  let w := (RegisterSchemesAsPrivileged (O:=elements_order) ["app"] no_options
              fresh_process).1 in
  GetStandardSchemes w = ["app"] ∧
  (∀ c, named (switch_name c) (command_line w) = [(switch_name c, "app")]) ∧
  length (command_line w) = 6 ∧
  mutations w =
    [AddStandardScheme "app" SCHEME_WITH_HOST; RegisterWebSafeScheme "app";
     AddSecureScheme "app"; AddCSPBypassingScheme "app";
     AddCORSEnabledScheme "app"].
Proof.
  cbn zeta. split; [|split; [|split]]; try (vm_compute; reflexivity).
  intros []; vm_compute; reflexivity.
Qed.

(** Two schemes, the standard class alone: one switch, valued [x,y]. *)
Example register_standard_only :
  RegisterSchemesAsPrivileged (O:=elements_order) ["x"; "y"]
    (with_options standard_only) fresh_process
  = ({| is_ready := false;
        g_standard_schemes := ["x"; "y"];
        mutations :=
          [AddStandardScheme "x" SCHEME_WITH_HOST; RegisterWebSafeScheme "x";
           AddStandardScheme "y" SCHEME_WITH_HOST; RegisterWebSafeScheme "y"];
        custom_service_worker_schemes := [];
        command_line := [(switches.kStandardSchemes, "x,y")] |}, None).
Proof. vm_compute. reflexivity. Qed.

Lemma register_after_ready_throws_witness :
  is_ready ready_process = true ∧
  ∃ w',
    RegisterSchemesAsPrivileged (O:=elements_order) ["late"] no_options ready_process =
      (w', Some "protocol.registerSchemesAsPrivileged should be called before app is ready") ∧
    w' = ready_process ∧
    command_line w' = command_line ready_process ∧
    GetStandardSchemes w' = GetStandardSchemes ready_process ∧
    mutations w' = mutations ready_process.
Proof.
  split; [reflexivity|].
  apply (register_after_ready_throws (O:=elements_order) ["late"] no_options
           ready_process).
  reflexivity.
Defined.

Lemma privileged_switches_appended_witness :
  let schemes := ["x"; "y"] in
  let args := with_options standard_only in
  let w := fresh_process in
  is_ready w = false ∧ schemes ≠ [] ∧
  ∃ w' appended,
    RegisterSchemesAsPrivileged (O:=elements_order) schemes args w = (w', None) ∧
    command_line w' = command_line w ++ appended ∧
    (∀ c, named (switch_name c) appended =
            if flag (read_options args) c
            then [(switch_name c, JoinString schemes ",")] else []) ∧
    (∀ c, flag (read_options args) c = true →
          named (switch_name c) (command_line w) = [] →
          named (switch_name c) (command_line w') =
            [(switch_name c, JoinString schemes ",")]) ∧
    (∀ s, JoinString [s] "," = s) ∧
    (∀ s t rest,
        JoinString (s :: t :: rest) "," = s +:+ "," +:+ JoinString (t :: rest) ",") ∧
    (Length args ≠ 2 → ∀ c, flag (read_options args) c = true) ∧
    (∀ o, Length args = 2 → GetNextDictionary args = Some o →
          ∀ c, flag (read_options args) c = default true (o !! option_key c)).
Proof.
  cbn zeta. split; [reflexivity|]. split; [discriminate|].
  apply (privileged_switches_appended (O:=elements_order) ["x"; "y"]
           (with_options standard_only) fresh_process).
  - reflexivity.
  - discriminate.
Defined.

(** C3 as stated fails: after a call with the list [a] and then a call with
    the empty list, both before ready and with the standard flag set, the
    standard scheme list is still [a], not the empty second list. *)
Lemma second_registration_empty_list :
  let L1 := ["a"] in
  let L2 : list string := [] in
  is_ready fresh_process = false ∧
  standard (read_options no_options) = true ∧
  ∃ w1 w2,
    RegisterSchemesAsPrivileged (O:=elements_order) L1 no_options fresh_process
      = (w1, None) ∧
    RegisterSchemesAsPrivileged (O:=elements_order) L2 no_options w1 = (w2, None) ∧
    GetStandardSchemes w2 = ["a"] ∧
    GetStandardSchemes w2 ≠ L2.
Proof.
  cbn zeta. split; [reflexivity|]. split; [reflexivity|].
  eexists _, _. split; [reflexivity|]. split; [reflexivity|].
  split; [vm_compute; reflexivity|]. vm_compute. discriminate.
Qed.

Lemma second_registration_overwrites_witness :
  let L1 := ["a"; "b"] in
  let L2 := ["c"] in
  is_ready fresh_process = false ∧
  standard (read_options no_options) = true ∧
  standard (read_options (with_options standard_only)) = true ∧
  L2 ≠ [] ∧
  ∃ w1 w2,
    RegisterSchemesAsPrivileged (O:=elements_order) L1 no_options fresh_process
      = (w1, None) ∧
    RegisterSchemesAsPrivileged (O:=elements_order) L2
      (with_options standard_only) w1 = (w2, None) ∧
    GetStandardSchemes w2 = L2.
Proof.
  cbn zeta. split; [reflexivity|]. split; [reflexivity|].
  split; [vm_compute; reflexivity|]. split; [discriminate|].
  apply (second_registration_overwrites (O:=elements_order) ["a"; "b"] ["c"]
           no_options (with_options standard_only) fresh_process).
  - reflexivity.
  - reflexivity.
  - vm_compute. reflexivity.
  - discriminate.
Defined.

Lemma empty_registration_witness :
  let w := (RegisterSchemesAsPrivileged (O:=elements_order) ["app"] no_options
              fresh_process).1 in
  is_ready w = false ∧ read_options no_options = all_privileges ∧
  RegisterSchemesAsPrivileged (O:=elements_order) [] no_options w =
    ({| is_ready := false;
        g_standard_schemes := g_standard_schemes w;
        mutations := mutations w;
        custom_service_worker_schemes := [];
        command_line :=
          command_line w ++ [(switches.kServiceWorkerSchemes, "")] |},
     None).
Proof.
  cbn zeta. split; [reflexivity|]. split; [reflexivity|].
  apply (empty_registration (O:=elements_order) no_options).
  - reflexivity.
  - reflexivity.
Defined.

(** * Properties of the controller *)

(** The scheme table meets the job factory's contract. *)
Lemma table_set_handler_null t scheme :
  table_has_handler (table_set_handler t scheme None) scheme = false.
Proof.
  unfold table_has_handler, table_set_handler. simpl.
  apply bool_decide_eq_false_2. rewrite lookup_delete_eq. by intros [? ?].
Qed.

Lemma table_unintercept_again t scheme :
  (table_unintercept (table_unintercept t scheme).2 scheme).1 = false.
Proof.
  unfold table_unintercept.
  destruct (overrides t !! scheme) eqn:E; simpl.
  - by rewrite lookup_delete_eq.
  - by rewrite E.
Qed.

Definition scheme_table_factory : JobFactory SchemeTable :=
  {| HasProtocolHandler := table_has_handler;
     SetProtocolHandler := table_set_handler;
     IsHandledProtocol := table_is_handled;
     UninterceptProtocol := table_unintercept;
     InterceptProtocol := table_intercept;
     SetProtocolHandler_null := table_set_handler_null;
     UninterceptProtocol_again := table_unintercept_again |}.



(** C6: the completion reporter does nothing when no completion callback
    was supplied; on status OK it runs the callback once with null; on any
    other status it runs the callback once with an error whose message is
    [ErrorCodeToString] of the status, which for FAIL, REGISTERED,
    NOT_REGISTERED, INTERCEPTED and NOT_INTERCEPTED is the message of the
    error table. *)
Theorem completion_report (error : ProtocolError) (f : Callback) :
  OnIOCompleted None error = [] ∧
  OnIOCompleted (Some f) PROTOCOL_OK = [CompletionRun f V8Null] ∧
  (error ≠ PROTOCOL_OK →
   OnIOCompleted (Some f) error =
     [CompletionRun f (V8Error (ErrorCodeToString error))]) ∧
  ErrorCodeToString PROTOCOL_FAIL = "Failed to manipulate protocol factory" ∧
  ErrorCodeToString PROTOCOL_REGISTERED = "The scheme has been registered" ∧
  ErrorCodeToString PROTOCOL_NOT_REGISTERED = "The scheme has not been registered" ∧
  ErrorCodeToString PROTOCOL_INTERCEPTED = "The scheme has been intercepted" ∧
  ErrorCodeToString PROTOCOL_NOT_INTERCEPTED = "The scheme has not been intercepted".
Proof.
  repeat split.
  intros Hne. unfold OnIOCompleted.
  by rewrite (proj2 (Z.eqb_neq _ _) Hne).
Qed.

(** C9: [ErrorCodeToString] answers on every status value, and on every
    value other than the five failure codes, PROTOCOL_OK and the values
    outside the enumeration among them, the answer is "Unexpected error". *)
Theorem unexpected_error (error : ProtocolError) :
  error ≠ PROTOCOL_FAIL →
  error ≠ PROTOCOL_REGISTERED →
  error ≠ PROTOCOL_NOT_REGISTERED →
  error ≠ PROTOCOL_INTERCEPTED →
  error ≠ PROTOCOL_NOT_INTERCEPTED →
  ErrorCodeToString error = "Unexpected error".
Proof.
  intros H1 H2 H3 H4 H5. unfold ErrorCodeToString.
  rewrite (proj2 (Z.eqb_neq _ _) H1), (proj2 (Z.eqb_neq _ _) H2),
    (proj2 (Z.eqb_neq _ _) H3), (proj2 (Z.eqb_neq _ _) H4),
    (proj2 (Z.eqb_neq _ _) H5).
  reflexivity.
Qed.


Section Executor.
Context {F : Type} {JF : JobFactory F}.

(** The I/O half of unregistering yields PROTOCOL_OK exactly when the job
    factory had a handler for the scheme, and has then reset it to null;
    otherwise it yields PROTOCOL_NOT_REGISTERED and leaves the job factory
    as it was. *)
Lemma unregister_in_io (jf : F) (scheme : string) (f : Callback) :
  let (error, jf') := UnregisterProtocolInIO jf scheme in
  (error = PROTOCOL_OK ↔ HasProtocolHandler jf scheme = true) ∧
  (HasProtocolHandler jf scheme = true →
     error = PROTOCOL_OK ∧
     jf' = SetProtocolHandler jf scheme None ∧
     HasProtocolHandler jf' scheme = false ∧
     OnIOCompleted (Some f) error = [CompletionRun f V8Null]) ∧
  (HasProtocolHandler jf scheme = false →
     error = PROTOCOL_NOT_REGISTERED ∧
     jf' = jf ∧
     OnIOCompleted (Some f) error =
       [CompletionRun f (V8Error "The scheme has not been registered")]).
Proof.
  unfold UnregisterProtocolInIO.
  destruct (HasProtocolHandler jf scheme) eqn:Hhas; simpl.
  - repeat split; try done. apply SetProtocolHandler_null.
  - repeat split; done.
Qed.

(** The I/O half of unintercepting yields PROTOCOL_OK exactly when the job
    factory reports an override removed, and PROTOCOL_NOT_INTERCEPTED
    otherwise, also when asked a second time. *)
Lemma unintercept_in_io (jf : F) (scheme : string) (f : Callback) :
  let (removed, jf1) := UninterceptProtocol jf scheme in
  let (error, jf') := UninterceptProtocolInIO jf scheme in
  (error = PROTOCOL_OK ↔ removed = true) ∧
  (removed = false → error = PROTOCOL_NOT_INTERCEPTED) ∧
  jf' = jf1 ∧
  let (again, _) := UninterceptProtocolInIO jf' scheme in
  again = PROTOCOL_NOT_INTERCEPTED ∧
  OnIOCompleted (Some f) again =
    [CompletionRun f (V8Error "The scheme has not been intercepted")].
Proof.
  unfold UninterceptProtocolInIO.
  pose proof (UninterceptProtocol_again jf scheme) as Hagain.
  destruct (UninterceptProtocol jf scheme) as [removed jf1]. simpl in Hagain.
  destruct (UninterceptProtocol jf1 scheme) as [removed' jf2].
  simpl in Hagain. subst removed'.
  destruct removed; repeat split; done.
Qed.

End Executor.

Section Threads.
Context {F : Type} {JF : JobFactory F}.

Lemma run_app (es1 es2 : list Event) (b : BrowserContext F) :
  run (es1 ++ es2) b = run es2 (run es1 b).
Proof. unfold run. apply foldl_app. Qed.

Lemma completion_runs_app (l1 l2 : list Run) :
  completion_runs (l1 ++ l2) = (completion_runs l1 ++ completion_runs l2).
Proof. unfold completion_runs. apply omap_app. Qed.

Lemma boolean_runs_app (l1 l2 : list Run) :
  boolean_runs (l1 ++ l2) = (boolean_runs l1 ++ boolean_runs l2).
Proof. unfold boolean_runs. apply omap_app. Qed.






Lemma run_tasks_snoc (queue : list Posted) (p : Posted) (jf : F) :
  run_tasks (queue ++ [p]) jf =
    let (rs, jf1) := run_tasks queue jf in
    let (r, jf2) := run_task p jf1 in
    (rs ++ [r], jf2).
Proof.
  revert jf. induction queue as [|q queue IH]; intros jf; simpl.
  - by destruct (run_task p jf).
  - destruct (run_task q jf) as [r0 jf0]. rewrite IH.
    destruct (run_tasks queue jf0) as [rs jf1].
    by destruct (run_task p jf1).
Qed.

Lemma run_tasks_length (queue : list Posted) (jf : F) :
  length (run_tasks queue jf).1 = length queue.
Proof.
  revert jf. induction queue as [|q queue IH]; intros jf; simpl; [done|].
  destruct (run_task q jf) as [r0 jf0]. specialize (IH jf0).
  destruct (run_tasks queue jf0). simpl in *. by rewrite IH.
Qed.

Lemma run_io_tasks (queue : list Posted) (jf : F) alive replies log crash :
  run (replicate (length queue) RunIOTask)
    {| job_factory := jf; protocol_alive := alive; io_thread := queue;
       ui_thread := replies; script_log := log; crashed := crash |}
  = {| job_factory := (run_tasks queue jf).2; protocol_alive := alive;
       io_thread := []; ui_thread := replies ++ (run_tasks queue jf).1;
       script_log := log; crashed := crash |}.
Proof.
  revert jf replies. induction queue as [|q queue IH]; intros jf replies.
  - simpl. by rewrite app_nil_r.
  - simpl length. simpl replicate.
    change (run (RunIOTask :: ?es) ?x) with (run es (io_step x)).
    unfold io_step. simpl.
    destruct (run_task q jf) as [r0 jf0]. rewrite IH.
    destruct (run_tasks queue jf0) as [rs jf1]. simpl.
    by rewrite <- app_assoc.
Qed.

Lemma run_replies (replies : list Reply) (jf : F) alive queue log crash :
  run (replicate (length replies) RunReply)
    {| job_factory := jf; protocol_alive := alive; io_thread := queue;
       ui_thread := replies; script_log := log; crashed := crash |}
  = {| job_factory := jf; protocol_alive := alive; io_thread := queue;
       ui_thread := [];
       script_log := log ++ concat (run_reply alive <$> replies);
       crashed := crash || existsb (use_after_free alive) replies |}.
Proof.
  revert log crash. induction replies as [|r replies IH]; intros log crash.
  - simpl. by rewrite app_nil_r, orb_false_r.
  - simpl length. simpl replicate.
    change (run (RunReply :: ?es) ?x) with (run es (reply_step x)).
    unfold reply_step. simpl. rewrite IH.
    by rewrite <- app_assoc, <- orb_assoc.
Qed.

(** Draining in closed form. *)
Lemma drain_eq (b : BrowserContext F) :
  drain b =
    {| job_factory := (run_tasks (io_thread b) (job_factory b)).2;
       protocol_alive := protocol_alive b;
       io_thread := [];
       ui_thread := [];
       script_log :=
         script_log b ++
         concat (run_reply (protocol_alive b) <$>
                   (ui_thread b ++ (run_tasks (io_thread b) (job_factory b)).1));
       crashed :=
         crashed b ||
         existsb (use_after_free (protocol_alive b))
           (ui_thread b ++ (run_tasks (io_thread b) (job_factory b)).1) |}.
Proof.
  destruct b as [jf alive queue replies log crash]. unfold drain. simpl.
  rewrite run_app, run_io_tasks.
  replace (length replies + length queue)
    with (length (replies ++ (run_tasks queue jf).1))
    by (by rewrite length_app, run_tasks_length).
  by rewrite run_replies.
Qed.

(** C8: the controller being there to be called, [isProtocolHandled] run
    to completion adds exactly one run of the boolean callback to what the
    threads would have run without the call, with the job factory's
    [IsHandledProtocol] answer for the scheme at the time the task is
    reached; it runs no completion callback, so delivers no error, and
    leaves the job factory as it was.  This holds whether or not the
    controller is destroyed once the call is posted. *)
Theorem is_protocol_handled_answers
    (b : BrowserContext F) (scheme : string) (callback : BooleanCallback)
    (destroyed : bool) :
  protocol_alive b = true →
  let later := if destroyed then [DestroyProtocol] else [] in
  let without := drain (run later b) in
  let with_call := drain (run later (step b (CallIsProtocolHandled scheme callback))) in
  boolean_runs (script_log with_call)
    = (boolean_runs (script_log without)
       ++ [(callback, IsHandledProtocol (job_factory without) scheme)]) ∧
  completion_runs (script_log with_call) = completion_runs (script_log without) ∧
  job_factory with_call = job_factory without.
Proof.
  intros Halive. cbn zeta. simpl step. rewrite Halive.
  destruct b as [jf alive queue replies log crash]. simpl in Halive. subst alive.
  unfold Protocol.IsProtocolHandled, PostTaskAndReplyWithResult. simpl.
  rewrite !drain_eq.
  destruct destroyed; simpl; rewrite run_tasks_snoc;
    destruct (run_tasks queue jf) as [rs jf1]; simpl;
    rewrite !app_assoc, !fmap_app, !concat_app, !app_assoc;
    rewrite !boolean_runs_app, !completion_runs_app; simpl;
    rewrite !app_nil_r; done.
Qed.






(** Draining after one more task is posted, in terms of draining without
    it. *)
Lemma drain_post (p : Posted) (b : BrowserContext F) :
  drain (PostTaskAndReplyWithResult p b) =
    {| job_factory := (run_task p (job_factory (drain b))).2;
       protocol_alive := protocol_alive b;
       io_thread := [];
       ui_thread := [];
       script_log :=
         script_log (drain b) ++
         run_reply (protocol_alive b) (run_task p (job_factory (drain b))).1;
       crashed :=
         crashed (drain b) ||
         use_after_free (protocol_alive b)
           (run_task p (job_factory (drain b))).1 |}.
Proof.
  destruct b as [jf alive queue replies log crash].
  unfold PostTaskAndReplyWithResult. rewrite !drain_eq.
  cbn [job_factory protocol_alive io_thread ui_thread script_log crashed].
  rewrite run_tasks_snoc.
  destruct (run_tasks queue jf) as [rs jf1]. cbn [fst snd].
  destruct (run_task p jf1) as [r jf2]. cbn [fst snd].
  f_equal.
  - rewrite !app_assoc, fmap_app, concat_app. cbn.
    by rewrite app_nil_r, !app_assoc.
  - rewrite !app_assoc, existsb_app. cbn.
    by rewrite orb_false_r, orb_assoc.
Qed.

Lemma drain_drain (b : BrowserContext F) : drain (drain b) = drain b.
Proof.
  rewrite (drain_eq (drain b)), (drain_eq b).
  cbn [job_factory protocol_alive io_thread ui_thread script_log crashed
       run_tasks fst snd app fmap list_fmap concat existsb].
  by rewrite app_nil_r, orb_false_r.
Qed.





(** C4: with the controller there to the end, [unregisterProtocol] run to
    completion, after everything posted before it: when the job factory has
    a handler for the scheme, the completion callback, if one was passed,
    is run with null, the handler has been reset to null and the job
    factory has none for the scheme afterwards; when it has none, the
    callback is run with the error of PROTOCOL_NOT_REGISTERED, "The scheme
    has not been registered", and the job factory is as it was.  So a
    callback is run with null exactly when a handler existed. *)
Theorem unregister_protocol_delivers
    (b : BrowserContext F) (scheme : string) (args : Arguments) :
  protocol_alive b = true →
  let without := drain b in
  let with_call := drain (step b (CallUnregisterProtocol scheme args)) in
  (HasProtocolHandler (job_factory without) scheme = true →
     script_log with_call = script_log without ++ report args V8Null ∧
     job_factory with_call
       = SetProtocolHandler (job_factory without) scheme None ∧
     HasProtocolHandler (job_factory with_call) scheme = false) ∧
  (HasProtocolHandler (job_factory without) scheme = false →
     script_log with_call
       = script_log without
         ++ report args (V8Error (ErrorCodeToString PROTOCOL_NOT_REGISTERED)) ∧
     job_factory with_call = job_factory without) ∧
  (∀ f, GetNextCallback args = Some f →
     (script_log with_call = script_log without ++ [CompletionRun f V8Null]
      ↔ HasProtocolHandler (job_factory without) scheme = true)) ∧
  ErrorCodeToString PROTOCOL_NOT_REGISTERED = "The scheme has not been registered".
Proof.
  intros Halive. cbn zeta. cbn [step]. rewrite Halive.
  unfold Protocol.UnregisterProtocol, Protocol.GetWeakPtr.
  rewrite drain_post, Halive.
  cbn [job_factory script_log run_task].
  unfold UnregisterProtocolInIO, report.
  destruct (HasProtocolHandler (job_factory (drain b)) scheme) eqn:Hhas;
    cbn [negb fst snd run_reply]; unfold OnIOCompleted;
    (split; [|split; [|split; [|reflexivity]]]).
  - intros _. split; [by destruct (GetNextCallback args)|].
    split; [done|]. apply SetProtocolHandler_null.
  - intros Hfalse. discriminate Hfalse.
  - intros f Hf. rewrite Hf. by cbn.
  - intros Hfalse. discriminate Hfalse.
  - intros _. split; [by destruct (GetNextCallback args)|done].
  - intros f Hf. rewrite Hf. cbn. split; [|intros Hfalse; discriminate Hfalse].
    intros Hlog. apply app_inv_head in Hlog. discriminate Hlog.
Qed.

(** C5: with the controller there to the end, [uninterceptProtocol] run to
    completion, after everything posted before it, leaves the job factory
    as the factory's [UninterceptProtocol] leaves it and runs the completion
    callback, if one was passed, with null when that call reports an
    override removed and with the error of PROTOCOL_NOT_INTERCEPTED, "The
    scheme has not been intercepted", when it does not; so a callback is
    run with null exactly when an override existed.  A second
    [uninterceptProtocol] of the same scheme then runs its callback with
    that error. *)
Theorem unintercept_protocol_delivers
    (b : BrowserContext F) (scheme : string) (args args' : Arguments) :
  protocol_alive b = true →
  let without := drain b in
  let with_call := drain (step b (CallUninterceptProtocol scheme args)) in
  let second :=
    drain (step with_call (CallUninterceptProtocol scheme args')) in
  let (removed, jf) := UninterceptProtocol (job_factory without) scheme in
  job_factory with_call = jf ∧
  script_log with_call
    = script_log without
      ++ report args
           (if removed then V8Null
            else V8Error (ErrorCodeToString PROTOCOL_NOT_INTERCEPTED)) ∧
  (∀ f, GetNextCallback args = Some f →
     (script_log with_call = script_log without ++ [CompletionRun f V8Null]
      ↔ removed = true)) ∧
  script_log second
    = script_log with_call
      ++ report args' (V8Error "The scheme has not been intercepted") ∧
  ErrorCodeToString PROTOCOL_NOT_INTERCEPTED = "The scheme has not been intercepted".
Proof.
  intros Halive. cbn zeta.
  assert (∀ x : BrowserContext F, protocol_alive x = true → ∀ a,
    drain (step x (CallUninterceptProtocol scheme a)) =
      {| job_factory := (UninterceptProtocol (job_factory (drain x)) scheme).2;
         protocol_alive := true; io_thread := []; ui_thread := [];
         script_log :=
           script_log (drain x) ++
           report a
             (if (UninterceptProtocol (job_factory (drain x)) scheme).1
              then V8Null
              else V8Error (ErrorCodeToString PROTOCOL_NOT_INTERCEPTED));
         crashed := crashed (drain x) |}) as Hcall.
  { intros x Hx a. cbn [step]. rewrite Hx.
    unfold Protocol.UninterceptProtocol, Protocol.GetWeakPtr.
    rewrite drain_post, Hx. cbn [run_task]. unfold UninterceptProtocolInIO.
    destruct (UninterceptProtocol (job_factory (drain x)) scheme)
      as [removed jf]. cbn [fst snd run_reply use_after_free].
    rewrite orb_false_r. f_equal. f_equal.
    unfold report, OnIOCompleted.
    by destruct (GetNextCallback a), removed. }
  assert (protocol_alive (drain (step b (CallUninterceptProtocol scheme args)))
          = true) as Halive' by (by rewrite (Hcall b Halive args)).
  rewrite (Hcall _ Halive' args'), drain_drain, (Hcall b Halive args).
  cbn [job_factory script_log].
  pose proof (UninterceptProtocol_again (job_factory (drain b)) scheme) as Hagain.
  destruct (UninterceptProtocol (job_factory (drain b)) scheme) as [removed jf].
  cbn [fst snd] in *.
  destruct (UninterceptProtocol jf scheme) as [removed' jf'] eqn:Hsecond.
  cbn [fst snd] in *. subst removed'.
  split; [done|]. split; [done|]. split; [|done].
  intros f Hf. unfold report. rewrite Hf.
  destruct removed; split; try done.
  intros Hlog. apply app_inv_head in Hlog. discriminate Hlog.
Qed.

End Threads.

(** * The controller on concrete calls *)

#[local] Existing Instance scheme_table_factory.

Lemma unexpected_error_witness :
  ErrorCodeToString PROTOCOL_OK = "Unexpected error" ∧
  ErrorCodeToString 6%Z = "Unexpected error" ∧
  ErrorCodeToString (-1)%Z = "Unexpected error".
Proof.
  split; [|split].
  - apply (unexpected_error PROTOCOL_OK); discriminate.
  - apply (unexpected_error 6%Z); discriminate.
  - apply (unexpected_error (-1)%Z); discriminate.
Defined.

(** Unregistering a registered scheme with the controller alive: the
    callback is run with null. *)
Example unregister_app :
  let b := run 
             [CallUnregisterProtocol "app" (with_callback 7); RunIOTask; RunReply]
             example_context in
  script_log b = [CompletionRun 7 V8Null] ∧
  table_has_handler (job_factory b) "app" = false.
Proof. split; vm_compute; reflexivity. Qed.

(** The same with the controller destroyed before the reply: the handler
    is removed all the same, and the callback is not run. *)
Example unregister_app_destroyed :
  let b := run 
             [CallUnregisterProtocol "app" (with_callback 7); RunIOTask;
              DestroyProtocol; RunReply]
             example_context in
  script_log b = [] ∧ ui_thread b = [] ∧
  table_has_handler (job_factory b) "app" = false.
Proof. repeat split; vm_compute; reflexivity. Qed.

(** Removing the override on [https] twice. *)
Example unintercept_https_twice :
  script_log
    (run 
       [CallUninterceptProtocol "https" (with_callback 2); RunIOTask; RunReply;
        CallUninterceptProtocol "https" (with_callback 3); RunIOTask; RunReply]
       example_context)
  = [CompletionRun 2 V8Null;
     CompletionRun 3 (V8Error "The scheme has not been intercepted")].
Proof. vm_compute. reflexivity. Qed.

Lemma unregister_protocol_delivers_witness :
  let b := step example_context (CallIsProtocolHandled "app" 1) in
  let scheme := "app" in
  let args := with_callback 7 in
  protocol_alive b = true ∧
  let without := drain b in
  let with_call := drain (step b (CallUnregisterProtocol scheme args)) in
  (HasProtocolHandler (job_factory without) scheme = true →
     script_log with_call = script_log without ++ report args V8Null ∧
     job_factory with_call
       = SetProtocolHandler (job_factory without) scheme None ∧
     HasProtocolHandler (job_factory with_call) scheme = false) ∧
  (HasProtocolHandler (job_factory without) scheme = false →
     script_log with_call
       = script_log without
         ++ report args (V8Error (ErrorCodeToString PROTOCOL_NOT_REGISTERED)) ∧
     job_factory with_call = job_factory without) ∧
  (∀ f, GetNextCallback args = Some f →
     (script_log with_call = script_log without ++ [CompletionRun f V8Null]
      ↔ HasProtocolHandler (job_factory without) scheme = true)) ∧
  ErrorCodeToString PROTOCOL_NOT_REGISTERED = "The scheme has not been registered".
Proof.
  cbn zeta. split; [reflexivity|].
  apply (unregister_protocol_delivers
           (step example_context (CallIsProtocolHandled "app" 1)) "app"
           (with_callback 7)).
  reflexivity.
Defined.

(** Unregistering twice, each call run to completion: null, then the
    error. *)
Example unregister_app_twice :
  script_log
    (drain (step (drain (step example_context
                    (CallUnregisterProtocol "app" (with_callback 7))))
              (CallUnregisterProtocol "app" (with_callback 8))))
  = [CompletionRun 7 V8Null;
     CompletionRun 8 (V8Error "The scheme has not been registered")].
Proof. vm_compute. reflexivity. Qed.

Lemma unintercept_protocol_delivers_witness :
  let b := example_context in
  let scheme := "https" in
  let args := with_callback 2 in
  let args' := with_callback 3 in
  protocol_alive b = true ∧
  let without := drain b in
  let with_call := drain (step b (CallUninterceptProtocol scheme args)) in
  let second :=
    drain (step with_call (CallUninterceptProtocol scheme args')) in
  let (removed, jf) := UninterceptProtocol (job_factory without) scheme in
  job_factory with_call = jf ∧
  script_log with_call
    = script_log without
      ++ report args
           (if removed then V8Null
            else V8Error (ErrorCodeToString PROTOCOL_NOT_INTERCEPTED)) ∧
  (∀ f, GetNextCallback args = Some f →
     (script_log with_call = script_log without ++ [CompletionRun f V8Null]
      ↔ removed = true)) ∧
  script_log second
    = script_log with_call
      ++ report args' (V8Error "The scheme has not been intercepted") ∧
  ErrorCodeToString PROTOCOL_NOT_INTERCEPTED = "The scheme has not been intercepted".
Proof.
  cbn zeta. split; [reflexivity|].
  apply (unintercept_protocol_delivers example_context "https"
           (with_callback 2) (with_callback 3)).
  reflexivity.
Defined.


(** Registering a scheme with the controller alive, and again: null, then
    the error; the handler serves the scheme in between. *)
Example register_foo_twice :
  script_log
    (drain (run [CallRegisterProtocol URLRequestStringJob "foo" 5 (with_callback 7);
                 CallIsProtocolHandled "foo" 1;
                 CallRegisterProtocol URLRequestBufferJob "foo" 6 (with_callback 8)]
              (new_context example_table)))
  = [CompletionRun 7 V8Null; BooleanRun 1 true;
     CompletionRun 8 (V8Error "The scheme has been registered")].
Proof. vm_compute. reflexivity. Qed.

(** What the weak pointer is for: had the reply been bound unretained, its
    delivery after the destruction would have run a method on the destroyed
    controller. *)
Example unretained_reply_would_crash :
  let unretained :=
    PostTaskAndReplyWithResult
      (PostUnregisterProtocol "app" ToUnretained (Some 7))
      (new_context example_table) in
  crashed (run [RunIOTask; DestroyProtocol; RunReply] unretained) = true ∧
  crashed
    (run [CallUnregisterProtocol "app" (with_callback 7); RunIOTask;
          DestroyProtocol; RunReply] (new_context example_table)) = false.
Proof. split; vm_compute; reflexivity. Qed.

Lemma is_protocol_handled_answers_witness :
  let b := step example_context
             (CallUnregisterProtocol "app" (with_callback 7)) in
  protocol_alive b = true ∧
  let later := [DestroyProtocol] in
  let without := drain (run later b) in
  let with_call :=
    drain 
      (run later (step b (CallIsProtocolHandled "app" 3))) in
  boolean_runs (script_log with_call)
    = boolean_runs (script_log without)
      ++ [(3, IsHandledProtocol (job_factory without) "app")] ∧
  completion_runs (script_log with_call) = completion_runs (script_log without) ∧
  job_factory with_call = job_factory without.
Proof.
  cbn zeta. split; [reflexivity|].
  apply (is_protocol_handled_answers 
           (step example_context
              (CallUnregisterProtocol "app" (with_callback 7)))
           "app" 3 true).
  reflexivity.
Defined.

(** The query is answered from the registered and the built-in handlers,
    also after the controller is gone. *)
Example is_protocol_handled_https :
  script_log
    (run 
       [CallIsProtocolHandled "https" 1; CallIsProtocolHandled "ftp" 2;
        DestroyProtocol; RunIOTask; RunIOTask; RunReply; RunReply]
       example_context)
  = [BooleanRun 1 true; BooleanRun 2 false].
Proof. vm_compute. reflexivity. Qed.

(** * The whole of a registration *)

Lemma register_scheme_eq schemes p (st : Frame) scheme :
  register_scheme schemes p st scheme =
    ({| is_ready := is_ready st.1;
        g_standard_schemes :=
          if standard p then schemes else g_standard_schemes st.1;
        mutations := mutations st.1 ++ scheme_mutations p scheme;
        custom_service_worker_schemes := custom_service_worker_schemes st.1;
        command_line := command_line st.1 |},
     loop_switches p ∪ st.2).
Proof.
  destruct st as [[ready std muts sw line] names].
  rewrite (surjective_pairing (register_scheme _ _ _ _)).
  rewrite register_scheme_switches. f_equal.
  destruct (standard p) eqn:E1, (secure p) eqn:E2, (bypassCSP p) eqn:E3,
    (corsEnabled p) eqn:E4, (supportFetchAPI p) eqn:E5;
    unfold register_scheme, scheme_mutations; rewrite E1, E2, E3, E4, E5;
    cbn [when effect insert_switch fst snd];
    unfold call, set_g_standard_schemes;
    cbn [mutations is_ready g_standard_schemes custom_service_worker_schemes
         command_line];
    rewrite <- ?app_assoc, ?app_nil_r; reflexivity.
Qed.

Lemma register_loop_eq schemes p l (st : Frame) :
  foldl (register_scheme schemes p) st l =
    ({| is_ready := is_ready st.1;
        g_standard_schemes :=
          if standard p && bool_decide (l ≠ [])
          then schemes else g_standard_schemes st.1;
        mutations := mutations st.1 ++ concat (scheme_mutations p <$> l);
        custom_service_worker_schemes := custom_service_worker_schemes st.1;
        command_line := command_line st.1 |},
     if bool_decide (l ≠ []) then loop_switches p ∪ st.2 else st.2).
Proof.
  revert st. induction l as [|s l IH]; intros st.
  - destruct st as [[ready std muts sw line] names].
    cbn [foldl fst snd fmap list_fmap concat is_ready g_standard_schemes
         mutations custom_service_worker_schemes command_line].
    rewrite (bool_decide_eq_false_2 (@nil string ≠ [])) by (intros H; by apply H).
    by rewrite andb_false_r, app_nil_r.
  - cbn [foldl]. rewrite IH, register_scheme_eq.
    cbn [fst snd is_ready g_standard_schemes mutations
         custom_service_worker_schemes command_line].
    rewrite (bool_decide_eq_true_2 (s :: l ≠ [])) by done.
    rewrite andb_true_r, fmap_cons, <- app_assoc. cbn [concat]. f_equal.
    + f_equal. destruct (standard p); [|done]. cbn [andb]. by case_bool_decide.
    + case_bool_decide; [set_solver|done].
Qed.

Lemma iteration_empty {O : UnorderedSetOrder} : iteration ∅ = [].
Proof.
  destruct (iteration ∅) as [|x l] eqn:E; [done|].
  assert (x ∈ iteration ∅) as Hx by (rewrite E; left).
  apply iteration_elem_of in Hx. set_solver.
Qed.

Lemma class_switch (b : bool) c :
  (list_to_set (switch_name <$> (if b then [c] else [])) : gset string)
  = if b then {[switch_name c]} else ∅.
Proof. destruct b; cbn [fmap list_fmap list_to_set]; set_solver. Qed.

Lemma inserted_classes_switches p schemes :
  (list_to_set (switch_name <$> inserted_classes p schemes) : gset string)
  = (if allowServiceWorkers p then {[switches.kServiceWorkerSchemes]} else ∅) ∪
    (if bool_decide (schemes ≠ []) then loop_switches p else ∅).
Proof.
  unfold inserted_classes, loop_switches.
  rewrite !fmap_app, !list_to_set_app_L, !class_switch.
  cbn [switch_name].
  destruct (bool_decide (schemes ≠ []));
    rewrite ?andb_true_r, ?andb_false_r.
  - generalize (if standard p then ({[switches.kStandardSchemes]} : gset string) else ∅).
    generalize (if secure p then ({[switches.kSecureSchemes]} : gset string) else ∅).
    generalize (if bypassCSP p then ({[switches.kBypassCSPSchemes]} : gset string) else ∅).
    generalize (if corsEnabled p then ({[switches.kCORSSchemes]} : gset string) else ∅).
    generalize (if supportFetchAPI p then ({[switches.kFetchSchemes]} : gset string) else ∅).
    generalize (if allowServiceWorkers p
                then ({[switches.kServiceWorkerSchemes]} : gset string) else ∅).
    intros. set_solver.
  - generalize (if allowServiceWorkers p
                then ({[switches.kServiceWorkerSchemes]} : gset string) else ∅).
    intros. set_solver.
Qed.

Lemma inserted_classes_NoDup p schemes : NoDup (inserted_classes p schemes).
Proof.
  unfold inserted_classes.
  destruct (bool_decide (schemes ≠ [])), (standard p), (secure p),
    (bypassCSP p), (corsEnabled p), (supportFetchAPI p),
    (allowServiceWorkers p); cbn [andb app];
    repeat (apply NoDup_cons; split;
            [rewrite ?elem_of_cons, elem_of_nil; intuition discriminate|]);
    apply NoDup_nil_2.
Qed.

Section Whole.
Context {O : UnorderedSetOrder}.

(** The registration in closed form. *)
Lemma api_eq schemes args w :
  let p := read_options args in
  api.RegisterSchemesAsPrivileged schemes args w =
    {| is_ready := is_ready w;
       g_standard_schemes :=
         if standard p && bool_decide (schemes ≠ [])
         then schemes else g_standard_schemes w;
       mutations := mutations w ++ concat (scheme_mutations p <$> schemes);
       custom_service_worker_schemes :=
         if allowServiceWorkers p then schemes
         else custom_service_worker_schemes w;
       command_line :=
         command_line w ++
         ((λ name, (name, JoinString schemes ",")) <$>
            iteration (list_to_set (switch_name <$> inserted_classes p schemes))) |}.
Proof.
  cbn zeta. unfold api.RegisterSchemesAsPrivileged, append_switches.
  rewrite register_loop_eq, inserted_classes_switches.
  set (p := read_options args).
  cbn [fst snd is_ready g_standard_schemes mutations
       custom_service_worker_schemes command_line].
  rewrite union_empty_r_L.
  match goal with |- foldl ?f ?w0 ?l = _ =>
    pose proof (append_switches_fold (JoinString schemes ",") l w0) as Hfold;
    cbn zeta in Hfold; destruct Hfold as (Hr & Hstd & Hm & Hsw & Hcl);
    destruct (foldl f w0 l) as [r' std' m' sw' cl']
  end.
  cbn [is_ready g_standard_schemes mutations custom_service_worker_schemes
       command_line] in *.
  subst r' std' m' sw' cl'.
  unfold when, effect, insert_switch.
  destruct (allowServiceWorkers p);
    cbn [fst snd is_ready g_standard_schemes mutations
         custom_service_worker_schemes command_line
         SetCustomServiceWorkerSchemes];
    f_equal; do 3 f_equal; rewrite ?union_empty_l_L; reflexivity.
Qed.

End Whole.

#[local] Instance switch_name_Inj : Inj (=) (=) switch_name.
Proof. intros c d. apply switch_name_inj. Qed.

Lemma read_options_same schemes args1 args2 w {O : UnorderedSetOrder} :
  read_options args1 = read_options args2 →
  RegisterSchemesAsPrivileged schemes args1 w
  = RegisterSchemesAsPrivileged schemes args2 w.
Proof.
  intros Hp. unfold RegisterSchemesAsPrivileged, api.RegisterSchemesAsPrivileged.
  by rewrite Hp.
Qed.

Section Extras.
Context {O : UnorderedSetOrder}.

(** X1: a registration calls, for each scheme of the list in input order,
    duplicates included: [AddStandardScheme] with host and
    [RegisterWebSafeScheme] when the standard flag is set, then
    [AddSecureScheme], [AddCSPBypassingScheme] and [AddCORSEnabledScheme]
    for their flags, the URL tables being given the scheme as a C string
    (cut at its first NUL) and the security policy the scheme itself; it
    makes no other call into the URL tables or the security policy, and
    none at all for the fetch and service-worker flags. *)
Theorem registration_mutator_calls schemes args w :
  mutations (api.RegisterSchemesAsPrivileged schemes args w)
  = mutations w ++ concat (scheme_mutations (read_options args) <$> schemes).
Proof. by rewrite api_eq. Qed.

(** X2: the standard scheme list after a registration is the input list
    when the standard flag is set and the list has a scheme; in every
    other case it is the list published before. *)
Theorem standard_schemes_after schemes args w :
  GetStandardSchemes (api.RegisterSchemesAsPrivileged schemes args w)
  = if standard (read_options args) && bool_decide (schemes ≠ [])
    then schemes else GetStandardSchemes w.
Proof. unfold GetStandardSchemes. by rewrite api_eq. Qed.

(** X3: the service-worker schemes after a registration are the input
    list, empty or not, when the service-worker flag is set, and those
    published before when it is cleared. *)
Theorem service_worker_schemes_after schemes args w :
  custom_service_worker_schemes (api.RegisterSchemesAsPrivileged schemes args w)
  = if allowServiceWorkers (read_options args) then schemes
    else custom_service_worker_schemes w.
Proof. by rewrite api_eq. Qed.

(** X4: what a registration appends to the command line is, up to order,
    one switch for each class inserted, all with the same value, and
    nothing else; the command line from before is kept as a prefix. *)
Theorem appended_switches schemes args w :
  ∃ appended,
    command_line (api.RegisterSchemesAsPrivileged schemes args w)
      = command_line w ++ appended ∧
    appended ≡ₚ
      (λ c, (switch_name c, JoinString schemes ",")) <$>
        inserted_classes (read_options args) schemes.
Proof.
  eexists. split; [by rewrite api_eq|].
  set (classes := inserted_classes (read_options args) schemes).
  rewrite (list_fmap_compose switch_name (λ name, (name, JoinString schemes ","))).
  apply fmap_Permutation, NoDup_Permutation.
  - apply iteration_NoDup.
  - apply (NoDup_fmap_2 _), inserted_classes_NoDup.
  - intros name. by rewrite iteration_elem_of, elem_of_list_to_set.
Qed.

(** X5: a registration with an empty list and the service-worker flag
    cleared changes nothing, whatever the other flags. *)
Theorem empty_registration_noop args w :
  allowServiceWorkers (read_options args) = false →
  api.RegisterSchemesAsPrivileged [] args w = w.
Proof.
  intros Hsw. rewrite api_eq. cbn zeta. unfold inserted_classes.
  rewrite Hsw, (bool_decide_eq_false_2 (@nil string ≠ [])) by (intros H; by apply H).
  rewrite !andb_false_r. cbn [app fmap list_fmap list_to_set concat].
  rewrite iteration_empty. cbn [fmap list_fmap].
  rewrite !app_nil_r. by destruct w.
Qed.

(** X6: a registration is not idempotent on the command line: of two
    registrations before ready that both set a class's flag, each with at
    least one scheme, the second appends that class's switch again, after
    the first one's. *)
Theorem repeated_registration_appends_again L1 L2 args1 args2 w c :
  is_ready w = false →
  L1 ≠ [] → L2 ≠ [] →
  flag (read_options args1) c = true →
  flag (read_options args2) c = true →
  ∃ w1 w2,
    RegisterSchemesAsPrivileged L1 args1 w = (w1, None) ∧
    RegisterSchemesAsPrivileged L2 args2 w1 = (w2, None) ∧
    named (switch_name c) (command_line w2)
    = named (switch_name c) (command_line w)
      ++ [(switch_name c, JoinString L1 ","); (switch_name c, JoinString L2 ",")].
Proof.
  intros Hready H1 H2 Hf1 Hf2. eexists _, _.
  unfold RegisterSchemesAsPrivileged. rewrite Hready.
  split; [reflexivity|]. rewrite api_is_ready, Hready.
  split; [reflexivity|].
  rewrite !api_command_line by done.
  rewrite !named_app, !named_switches by apply iteration_NoDup.
  rewrite !bool_decide_eq_true_2, <- app_assoc; [done| |];
    by apply iteration_elem_of, elem_of_requested_switches.
Qed.

(** X7: the options are read only from a call with exactly two script
    arguments whose second converts to a dictionary; any other call, one
    with a third argument included, registers as a call without options
    does. *)
Theorem options_need_two_arguments schemes args w :
  Length args ≠ 2 ∨ GetNextDictionary args = None →
  RegisterSchemesAsPrivileged schemes args w
  = RegisterSchemesAsPrivileged schemes no_options w.
Proof.
  intros Hargs. apply read_options_same. unfold read_options at 1.
  destruct Hargs as [HL|Hnone].
  - by rewrite (proj2 (Nat.eqb_neq _ _) HL).
  - rewrite Hnone. by destruct (_ =? _)%nat.
Qed.

(** X8: an entry of the options object under a key other than the six
    option keys changes nothing of a registration. *)
Theorem unknown_option_ignored schemes (o : gmap string bool) key value w :
  (∀ c, key ≠ option_key c) →
  RegisterSchemesAsPrivileged schemes (with_options (<[key := value]> o)) w
  = RegisterSchemesAsPrivileged schemes (with_options o) w.
Proof.
  intros Hkey. apply read_options_same.
  unfold read_options, with_options, Get.
  cbn [Length GetNextDictionary Nat.eqb].
  rewrite (lookup_insert_ne _ _ _ _ (Hkey Standard)),
    (lookup_insert_ne _ _ _ _ (Hkey Secure)),
    (lookup_insert_ne _ _ _ _ (Hkey BypassCSP)),
    (lookup_insert_ne _ _ _ _ (Hkey AllowServiceWorkers)),
    (lookup_insert_ne _ _ _ _ (Hkey SupportFetchAPI)),
    (lookup_insert_ne _ _ _ _ (Hkey CorsEnabled)).
  reflexivity.
Qed.

(** X9: a registration never changes whether the application is ready, so
    of any run of registrations either none throws (the application was not
    ready at the start) or every one throws and the process at the end is
    the process at the start. *)
Theorem registrations_in_a_row calls w :
  let (w', thrown) := register_each calls w in
  is_ready w' = is_ready w ∧
  thrown = replicate (length calls)
             (if is_ready w
              then Some "protocol.registerSchemesAsPrivileged should be called before app is ready"
              else None) ∧
  (is_ready w = true → w' = w).
Proof.
  revert w. induction calls as [|[schemes args] calls IH]; intros w.
  - by cbn.
  - cbn [register_each length replicate].
    unfold RegisterSchemesAsPrivileged at 1.
    destruct (is_ready w) eqn:Hready.
    + specialize (IH w). destruct (register_each calls w) as [w' rest].
      rewrite Hready in IH. destruct IH as (? & -> & ?). by auto.
    + specialize (IH (api.RegisterSchemesAsPrivileged schemes args w)).
      destruct (register_each calls _) as [w' rest].
      rewrite api_is_ready, Hready in IH. destruct IH as (? & -> & _).
      by auto.
Qed.

End Extras.

(** * More on the controller *)

Section MoreExecutor.
Context {F : Type} {JF : JobFactory F}.

(** X10: unregistering a scheme a second time yields
    PROTOCOL_NOT_REGISTERED and leaves the job factory as the first call
    left it, whether or not the first call found a handler. *)
Theorem unregister_twice (jf : F) (scheme : string) :
  let (_, jf1) := UnregisterProtocolInIO jf scheme in
  let (again, jf2) := UnregisterProtocolInIO jf1 scheme in
  again = PROTOCOL_NOT_REGISTERED ∧ jf2 = jf1.
Proof.
  unfold UnregisterProtocolInIO.
  destruct (HasProtocolHandler jf scheme) eqn:Hhas; cbn [negb].
  - by rewrite SetProtocolHandler_null.
  - by rewrite Hhas.
Qed.

(** The boolean callbacks a reply runs do not depend on the controller
    being there. *)
Lemma boolean_runs_run_reply (alive : bool) (r : Reply) :
  boolean_runs (run_reply alive r) = boolean_runs (run_reply true r).
Proof.
  destruct r as [[[]|] callback error|callback handled]; [| |done];
    (destruct alive; [done|]); cbn [run_reply];
    unfold OnIOCompleted; (destruct callback; [|done]);
    by destruct (error =? PROTOCOL_OK)%Z.
Qed.

(** X11: the job factory is touched on the I/O thread only: a call, the
    delivery of a reply and the destruction of the controller leave it as
    it is. *)
Theorem job_factory_confined (es : list Event) (b : BrowserContext F) :
  Forall (λ e, e ≠ RunIOTask) es →
  job_factory (run es b) = job_factory b.
Proof.
  intros Hes. revert b. induction Hes as [|e es He _ IH]; intros b; [done|].
  change (run (e :: es) b) with (run es (step b e)). rewrite IH.
  destruct e; cbn [step]; try done; try by destruct (protocol_alive b).
  unfold reply_step. by destruct (ui_thread b).
Qed.

Lemma step_same_io (b1 b2 : BrowserContext F) (e : Event) :
  ¬ is_call e → same_io b1 b2 → same_io (step b1 e) (step b2 e).
Proof.
  intros He Hsame. pose proof Hsame as (Hjf & Hio & Hui & Hlog).
  destruct e; cbn [step]; try (exfalso; apply He; exact I).
  - unfold io_step. rewrite <- Hio, <- Hjf.
    destruct (io_thread b1) as [|p rest]; [done|].
    destruct (run_task p (job_factory b1)) as [r jf].
    repeat split; cbn; by rewrite ?Hui.
  - unfold reply_step. rewrite <- Hui.
    destruct (ui_thread b1) as [|r rest]; [done|].
    repeat split; cbn; try done.
    rewrite !boolean_runs_app, Hlog.
    by rewrite boolean_runs_run_reply, (boolean_runs_run_reply (protocol_alive b2)).
  - done.
Qed.

Lemma run_same_io (es : list Event) (b1 b2 : BrowserContext F) :
  Forall (λ e, ¬ is_call e) es → same_io b1 b2 → same_io (run es b1) (run es b2).
Proof.
  intros Hes. revert b1 b2.
  induction Hes as [|e es He _ IH]; intros b1 b2 Hsame; [done|].
  change (run (e :: es) ?b) with (run es (step b e)).
  by apply IH, step_same_io.
Qed.

(** X12: destroying the controller cancels nothing on the I/O thread: with
    no further calls made, the job factory ends as it would have without the
    destruction, the same tasks and replies are left pending, and the
    boolean callbacks are run the same. *)
Theorem destruction_cancels_no_task (es : list Event) (b : BrowserContext F) :
  Forall (λ e, ¬ is_call e) es →
  let destroyed := run (DestroyProtocol :: es) b in
  let kept := run es b in
  job_factory destroyed = job_factory kept ∧
  io_thread destroyed = io_thread kept ∧
  ui_thread destroyed = ui_thread kept ∧
  boolean_runs (script_log destroyed) = boolean_runs (script_log kept).
Proof.
  intros Hes. cbn zeta.
  change (run (DestroyProtocol :: es) b) with (run es (destroy b)).
  by apply (run_same_io es (destroy b) b).
Qed.

(** X13: with the controller there to the end, a mutating call run to
    completion behaves as if run after everything posted before it: the job
    factory ends as the I/O half leaves the factory of the run without the
    call, and the script sees what it would have seen without the call
    followed by the report of the call's status, which is nothing when no
    completion callback was passed. *)
Theorem mutating_call_reports_last
    (b : BrowserContext F) (scheme : string) (args : Arguments) :
  protocol_alive b = true →
  let without := drain b in
  (let with_call := drain (step b (CallUnregisterProtocol scheme args)) in
   let (error, jf) := UnregisterProtocolInIO (job_factory without) scheme in
   job_factory with_call = jf ∧
   script_log with_call
     = script_log without ++ OnIOCompleted (GetNextCallback args) error) ∧
  (let with_call := drain (step b (CallUninterceptProtocol scheme args)) in
   let (error, jf) := UninterceptProtocolInIO (job_factory without) scheme in
   job_factory with_call = jf ∧
   script_log with_call
     = script_log without ++ OnIOCompleted (GetNextCallback args) error).
Proof.
  intros Halive. cbn zeta. cbn [step]. rewrite Halive.
  destruct b as [jf alive queue replies log crash]. cbn in Halive. subst alive.
  unfold Protocol.UnregisterProtocol, Protocol.UninterceptProtocol,
    PostTaskAndReplyWithResult, Protocol.GetWeakPtr.
  cbn [job_factory protocol_alive io_thread ui_thread script_log crashed].
  rewrite !drain_eq.
  cbn [job_factory protocol_alive io_thread ui_thread script_log crashed].
  rewrite !run_tasks_snoc.
  destruct (run_tasks queue jf) as [rs jf1]. cbn [fst snd run_task].
  split.
  - destruct (UnregisterProtocolInIO jf1 scheme) as [error jf2].
    cbn [fst snd]. split; [done|].
    by rewrite !app_assoc, fmap_app, concat_app, !app_assoc; cbn;
      rewrite app_nil_r.
  - destruct (UninterceptProtocolInIO jf1 scheme) as [error jf2].
    cbn [fst snd]. split; [done|].
    by rewrite !app_assoc, fmap_app, concat_app, !app_assoc; cbn;
      rewrite app_nil_r.
Qed.

End MoreExecutor.

(** X14: what a completion callback is run with determines the status, for
    PROTOCOL_OK and for each of the five failure codes: no other status
    yields the same run. *)
Theorem report_determines_status (f : Callback) (e1 e2 : ProtocolError) :
  e1 = PROTOCOL_OK ∨ failure_code e1 →
  OnIOCompleted (Some f) e1 = OnIOCompleted (Some f) e2 →
  e1 = e2.
Proof.
  unfold failure_code, OnIOCompleted, ErrorCodeToString.
  intros [->|[->|[->|[->|[->| ->]]]]];
    cbn [Z.eqb PROTOCOL_OK PROTOCOL_FAIL PROTOCOL_REGISTERED
         PROTOCOL_NOT_REGISTERED PROTOCOL_INTERCEPTED PROTOCOL_NOT_INTERCEPTED
         Pos.eqb];
    repeat match goal with
           | |- context [(e2 =? ?c)%Z] => destruct (Z.eqb_spec e2 c)
           end;
    intros Hrun; first [congruence | discriminate Hrun].
Qed.

(** X15: [ErrorCodeToString] answers "Unexpected error" for the statuses
    that are none of the five failure codes, and for those only. *)
Theorem unexpected_error_iff (error : ProtocolError) :
  ErrorCodeToString error = "Unexpected error" ↔ ¬ failure_code error.
Proof.
  unfold failure_code, ErrorCodeToString.
  repeat match goal with
         | |- context [(error =? ?c)%Z] => destruct (Z.eqb_spec error c)
         end;
    split; intros H; first [discriminate H | tauto | reflexivity].
Qed.

(** * The additions on concrete calls *)

(** A scheme with a NUL in it reaches the URL tables cut at the NUL and the
    security policy whole. *)
Example register_scheme_with_nul :
  let scheme := "a" +:+ String Ascii.zero "b" in
  mutations (api.RegisterSchemesAsPrivileged (O:=elements_order) [scheme]
               (with_options standard_only) fresh_process)
  = [AddStandardScheme "a" SCHEME_WITH_HOST; RegisterWebSafeScheme scheme].
Proof. vm_compute. reflexivity. Qed.

Lemma empty_registration_noop_witness :
  let w := (RegisterSchemesAsPrivileged (O:=elements_order) ["app"] no_options
              fresh_process).1 in
  allowServiceWorkers (read_options (with_options standard_only)) = false ∧
  api.RegisterSchemesAsPrivileged (O:=elements_order) []
    (with_options standard_only) w = w.
Proof.
  cbn zeta. split; [vm_compute; reflexivity|].
  apply (empty_registration_noop (O:=elements_order)).
  vm_compute. reflexivity.
Defined.

Lemma repeated_registration_appends_again_witness :
  is_ready fresh_process = false ∧
  ∃ w1 w2,
    RegisterSchemesAsPrivileged (O:=elements_order) ["a"] no_options fresh_process
      = (w1, None) ∧
    RegisterSchemesAsPrivileged (O:=elements_order) ["a"; "b"]
      (with_options standard_only) w1 = (w2, None) ∧
    named (switch_name Standard) (command_line w2)
    = named (switch_name Standard) (command_line fresh_process)
      ++ [(switch_name Standard, JoinString ["a"] ",");
          (switch_name Standard, JoinString ["a"; "b"] ",")].
Proof.
  split; [reflexivity|].
  apply (repeated_registration_appends_again (O:=elements_order) ["a"] ["a"; "b"]
           no_options (with_options standard_only) fresh_process Standard).
  - reflexivity.
  - discriminate.
  - discriminate.
  - reflexivity.
  - vm_compute. reflexivity.
Defined.

Lemma options_need_two_arguments_witness :
  Length extra_argument ≠ 2 ∧
  RegisterSchemesAsPrivileged (O:=elements_order) ["x"] extra_argument fresh_process
  = RegisterSchemesAsPrivileged (O:=elements_order) ["x"] no_options fresh_process.
Proof.
  split; [discriminate|].
  apply (options_need_two_arguments (O:=elements_order) ["x"] extra_argument
           fresh_process).
  left. discriminate.
Defined.

Lemma unknown_option_ignored_witness :
  (∀ c, "stream" ≠ option_key c) ∧
  RegisterSchemesAsPrivileged (O:=elements_order) ["x"]
    (with_options (<["stream" := true]> ∅)) fresh_process
  = RegisterSchemesAsPrivileged (O:=elements_order) ["x"] (with_options ∅)
      fresh_process.
Proof.
  split; [intros []; discriminate|].
  apply (unknown_option_ignored (O:=elements_order) ["x"] ∅ "stream" true
           fresh_process).
  intros []; discriminate.
Defined.

Lemma job_factory_confined_witness :
  let es := [CallUnregisterProtocol "app" (with_callback 7); RunReply;
             DestroyProtocol] in
  Forall (λ e, e ≠ RunIOTask) es ∧
  job_factory (run es example_context) = job_factory example_context.
Proof.
  cbn zeta. split; [repeat constructor; discriminate|].
  apply (job_factory_confined
           [CallUnregisterProtocol "app" (with_callback 7); RunReply;
            DestroyProtocol] example_context).
  repeat constructor; discriminate.
Defined.

Lemma destruction_cancels_no_task_witness :
  let b := step example_context (CallUnregisterProtocol "app" (with_callback 7)) in
  let es := [RunIOTask; RunReply] in
  Forall (λ e, ¬ is_call e) es ∧
  let destroyed := run (DestroyProtocol :: es) b in
  let kept := run es b in
  job_factory destroyed = job_factory kept ∧
  io_thread destroyed = io_thread kept ∧
  ui_thread destroyed = ui_thread kept ∧
  boolean_runs (script_log destroyed) = boolean_runs (script_log kept).
Proof.
  cbn zeta. split; [repeat constructor; intros H; exact H|].
  apply (destruction_cancels_no_task [RunIOTask; RunReply]
           (step example_context
              (CallUnregisterProtocol "app" (with_callback 7)))).
  repeat constructor; intros H; exact H.
Defined.

Lemma mutating_call_reports_last_witness :
  let b := step example_context (CallIsProtocolHandled "app" 1) in
  let scheme := "app" in
  let args := with_callback 7 in
  protocol_alive b = true ∧
  let without := drain b in
  (let with_call := drain (step b (CallUnregisterProtocol scheme args)) in
   let (error, jf) := UnregisterProtocolInIO (job_factory without) scheme in
   job_factory with_call = jf ∧
   script_log with_call
     = script_log without ++ OnIOCompleted (GetNextCallback args) error) ∧
  (let with_call := drain (step b (CallUninterceptProtocol scheme args)) in
   let (error, jf) := UninterceptProtocolInIO (job_factory without) scheme in
   job_factory with_call = jf ∧
   script_log with_call
     = script_log without ++ OnIOCompleted (GetNextCallback args) error).
Proof.
  cbn zeta. split; [reflexivity|].
  apply (mutating_call_reports_last
           (step example_context (CallIsProtocolHandled "app" 1)) "app"
           (with_callback 7)).
  reflexivity.
Defined.

Lemma report_determines_status_witness :
  failure_code PROTOCOL_NOT_REGISTERED ∧
  OnIOCompleted (Some 7) PROTOCOL_NOT_REGISTERED = OnIOCompleted (Some 7) 3%Z ∧
  PROTOCOL_NOT_REGISTERED = 3%Z.
Proof.
  split; [right; right; left; reflexivity|]. split; [reflexivity|].
  apply (report_determines_status 7 PROTOCOL_NOT_REGISTERED 3%Z).
  - right. right. right. left. reflexivity.
  - reflexivity.
Defined.

(** The script of the last witness, run: the query posted first is answered
    first, the unregistration reports after it. *)
Example query_then_unregister :
  script_log
    (drain (run [CallIsProtocolHandled "app" 1;
                 CallUnregisterProtocol "app" (with_callback 7);
                 CallIsProtocolHandled "app" 2] example_context))
  = [BooleanRun 1 true; CompletionRun 7 V8Null; BooleanRun 2 false].
Proof. vm_compute. reflexivity. Qed.
